(** * A hierarchical virtual memory over a paged physical memory

  Shallow embedding of [VirtualMemory.cpp]: the frame selector
  ([findFrame]), the allocator ([addFrame]), the translator
  ([translateVirtualAddress]) and the public entry points
  ([VMinitialize], [VMread], [VMwrite]).

  Machine integers are integers of [Z] with the wrap-around of their C++
  type written out; the physical memory and the backing store are finite
  maps; every call of the physical-memory backend is recorded, in order,
  in the backend state. *)

From Stdlib Require Import ZArith List Lia Bool.
From stdpp Require Import gmap list.
Import ListNotations.

#[local] Open Scope Z_scope.

(** ** Machine integers *)

Module MachineInt.

(** [uint64_t] (also [std::size_t]). *)
Definition u64 (z : Z) : Z := z mod 2 ^ 64.

(** [long long int]. *)
Definition i64 (z : Z) : Z := (z + 2 ^ 63) mod 2 ^ 64 - 2 ^ 63.

(** [int], which is also [word_t]. *)
Definition i32 (z : Z) : Z := (z + 2 ^ 31) mod 2 ^ 32 - 2 ^ 31.

End MachineInt.
Import MachineInt.

(** ** Configuration *)

Record Config := mkConfig {
  OFFSET_WIDTH : Z;
  VIRTUAL_ADDRESS_WIDTH : Z;
  PHYSICAL_ADDRESS_WIDTH : Z
}.

(** ** Backend calls and backend state *)

Inductive event :=
| EvRead (physicalAddress : Z)
| EvWrite (physicalAddress value : Z)
| EvEvict (frameIndex evictedPageIndex : Z)
| EvRestore (frameIndex restoredPageIndex : Z).

Record pm := mkPm {
  ram : gmap Z Z;             (* physical word address -> word *)
  swap : gmap Z (list Z);     (* page number -> saved page *)
  calls : list event          (* backend calls so far, oldest first *)
}.

(** The by-reference variables that [addFrame] shares with [findFrame]. *)
Record search := mkSearch {
  maxFrameIndex : Z;          (* long long int & *)
  maxCyclicalDistance : Z;    (* int & *)
  pageToEvict : Z;            (* uint64_t & *)
  parentOfPageToEvict : Z;    (* uint64_t & *)
  frameToEvict : Z;           (* uint64_t & *)
  currentFrameIndex : Z;      (* word_t & *)
  zeroFrameIndex : Z          (* uint64_t & *)
}.

(** The indices [i, i+1, ..., i+n-1] of a counting loop. *)
Fixpoint range (i : Z) (n : nat) : list Z :=
  match n with
  | O => []
  | Datatypes.S n' => i :: range (i + 1) n'
  end.

(** A [for] loop whose body may [return]: [n] iterations from index [i];
  the flag tells that the body returned. *)
Fixpoint for_loop {S : Type} (n : nat) (i : Z) (body : Z -> S -> S * bool) (s : S)
  : S * bool :=
  match n with
  | O => (s, false)
  | Datatypes.S n' =>
      let '(s', returned) := body i s in
      if returned then (s', true) else for_loop n' (i + 1) body s'
  end.

Section VirtualMemory.

Variable cfg : Config.

(** Modelled from the spec: the constants of MemoryConstants.h, a header
    that is not part of the source under study.  PAGE_SIZE =
    2^OFFSET_WIDTH, NUM_FRAMES = 2^PHYSICAL_ADDRESS_WIDTH / PAGE_SIZE,
    NUM_PAGES = 2^(VIRTUAL_ADDRESS_WIDTH - OFFSET_WIDTH),
    VIRTUAL_MEMORY_SIZE = 2^VIRTUAL_ADDRESS_WIDTH and TABLES_DEPTH =
    ceil((VIRTUAL_ADDRESS_WIDTH - OFFSET_WIDTH) / OFFSET_WIDTH). *)
Definition PAGE_SIZE : Z := 2 ^ OFFSET_WIDTH cfg.
Definition RAM_SIZE : Z := 2 ^ PHYSICAL_ADDRESS_WIDTH cfg.
Definition VIRTUAL_MEMORY_SIZE : Z := 2 ^ VIRTUAL_ADDRESS_WIDTH cfg.
Definition NUM_FRAMES : Z := RAM_SIZE / PAGE_SIZE.
Definition NUM_PAGES : Z := 2 ^ (VIRTUAL_ADDRESS_WIDTH cfg - OFFSET_WIDTH cfg).
Definition TABLES_DEPTH : Z :=
  (VIRTUAL_ADDRESS_WIDTH cfg - OFFSET_WIDTH cfg + OFFSET_WIDTH cfg - 1)
  / OFFSET_WIDTH cfg.

(** *** The physical memory backend *)

Definition record (e : event) (st : pm) : pm :=
  mkPm (ram st) (swap st) (calls st ++ [e]).

Definition word_at (m : gmap Z Z) (a : Z) : Z := default 0 (m !! a).

(** Modelled from the spec: PMread of PhysicalMemory.h (the backend is
    not part of the source under study): returns the word stored at the
    physical word address.  The parameter is a [uint64_t], the cell a
    [word_t]. *)
Definition PMread (physicalAddress : Z) (st : pm) : Z * pm :=
  let a := u64 physicalAddress in
  (i32 (word_at (ram st) a), record (EvRead a) st).

(** Modelled from the spec: PMwrite of PhysicalMemory.h: stores a word at
    the physical word address. *)
Definition PMwrite (physicalAddress value : Z) (st : pm) : pm :=
  let a := u64 physicalAddress in
  let v := i32 value in
  mkPm (<[a := v]> (ram st)) (swap st) (calls st ++ [EvWrite a v]).

(** The slot indices of a frame: 0, ..., PAGE_SIZE - 1. *)
Definition slots : list Z := range 0 (Z.to_nat PAGE_SIZE).

(** Modelled from the spec: PMevict of PhysicalMemory.h: copies the
    contents of the frame out to the backing-store slot of the page. *)
Definition PMevict (frameIndex evictedPageIndex : Z) (st : pm) : pm :=
  let f := u64 frameIndex in
  let p := u64 evictedPageIndex in
  let saved := map (fun i => word_at (ram st) (f * PAGE_SIZE + i)) slots in
  mkPm (ram st) (<[p := saved]> (swap st)) (calls st ++ [EvEvict f p]).

(** Modelled from the spec: PMrestore of PhysicalMemory.h: copies the
    contents of the page from the backing store into the frame; a page
    that was never saved comes back zero-filled. *)
Definition PMrestore (frameIndex restoredPageIndex : Z) (st : pm) : pm :=
  let f := u64 frameIndex in
  let p := u64 restoredPageIndex in
  let saved := default [] (swap st !! p) in
  let ram' :=
    fold_left
      (fun m i => <[f * PAGE_SIZE + i := nth (Z.to_nat i) saved 0]> m)
      slots (ram st) in
  mkPm ram' (swap st) (calls st ++ [EvRestore f p]).

(** *** VirtualMemory.cpp *)

(** [for (int offset = 0; offset < PAGE_SIZE; offset++)
       PMwrite(frameAddress + offset, 0);]
    The sum is a [uint64_t]; [PMwrite] wraps it. *)
Definition emptyFrame (frameAddress : Z) (st : pm) : pm :=
  fst (for_loop (Z.to_nat PAGE_SIZE) 0
         (fun offset st => (PMwrite (frameAddress + offset) 0 st, false))
         st).

Definition VMinitialize (st : pm) : pm :=
  let rootFrameAddress := 0 in
  emptyFrame rootFrameAddress st.

Definition getOffset (virtualAddress : Z) : Z :=
  let mask := u64 (Z.shiftl 1 (OFFSET_WIDTH cfg) - 1) in
  let offset := Z.land virtualAddress mask in
  offset.

Definition findCyclicDistance (pageSwappedIn pageToSwap : Z) : Z :=
  let firstDistance := i64 (u64 (pageSwappedIn - pageToSwap)) in
  let firstDistance :=
    if firstDistance <? 0 then i64 (- firstDistance) else firstDistance in
  let secondDistance := i64 (NUM_PAGES - firstDistance) in
  u64 (if secondDistance <? firstDistance then secondDistance else firstDistance).

Definition concatenatePath (currentPath currentOffset : Z) : Z :=
  u64 (u64 (Z.shiftl currentPath (OFFSET_WIDTH cfg)) + currentOffset).

Definition set_max (v : Z) (sr : search) : search :=
  mkSearch v (maxCyclicalDistance sr) (pageToEvict sr) (parentOfPageToEvict sr)
    (frameToEvict sr) (currentFrameIndex sr) (zeroFrameIndex sr).

Definition set_victim (d page parent frame : Z) (sr : search) : search :=
  mkSearch (maxFrameIndex sr) d page parent frame
    (currentFrameIndex sr) (zeroFrameIndex sr).

Definition set_adopted (frameIndex : Z) (sr : search) : search :=
  mkSearch (-1) (maxCyclicalDistance sr) (pageToEvict sr)
    (parentOfPageToEvict sr) (frameToEvict sr) (i32 frameIndex) (u64 frameIndex).

(** The part of the loop body of [findFrame] that precedes the recursive
    call: the two running maxima. *)
Definition note_entry (pageNumber level frameIndex value updatedPathToPage : Z)
    (sr : search) : search :=
  let sr :=
    if (maxFrameIndex sr <? value) && (value <? NUM_FRAMES)
    then set_max value sr else sr in
  if level =? TABLES_DEPTH - 1 then
    let cyclicDistance := i32 (findCyclicDistance pageNumber updatedPathToPage) in
    if maxCyclicalDistance sr <? cyclicDistance
    then set_victim cyclicDistance updatedPathToPage (u64 frameIndex) (u64 value) sr
    else sr
  else sr.

(** The block after the loop of [findFrame]: adoption of an all-zero
    table. *)
Definition adopt (parentAddress frameIndex forbiddenFrame addressToAdd : Z)
    (allZeroFrames : bool) (sr : search) (st : pm) : search * pm :=
  if allZeroFrames && negb (maxFrameIndex sr =? -1)
     && negb (u64 frameIndex =? forbiddenFrame)
  then
    let sr := set_adopted frameIndex sr in
    let st := if parentAddress =? -1 then st else PMwrite parentAddress 0 st in
    (sr, PMwrite addressToAdd (i32 frameIndex) st)
  else (sr, st).

(** [findFrame]; [fuel] bounds the recursion depth, which the guard
    [level < TABLES_DEPTH] bounds in the source. *)
Fixpoint findFrame (fuel : nat)
    (pageNumber parentAddress level currFrameOffset frameIndex
     pathToPage forbiddenFrame addressToAdd : Z)
    (sr : search) (st : pm) {struct fuel} : search * pm :=
  match fuel with
  | O => (sr, st)
  | Datatypes.S fuel' =>
      if level <? TABLES_DEPTH then
        let frameAddress := i32 (frameIndex * PAGE_SIZE) in
        let '(allZeroFrames, sr, st, returned) :=
          for_loop (Z.to_nat PAGE_SIZE) 0
            (fun i '(allZeroFrames, sr, st) =>
               let '(value, st) := PMread (i32 (frameAddress + i)) st in
               if value =? 0 then (allZeroFrames, sr, st, false)
               else
                 let updatedPathToPage := concatenatePath pathToPage i in
                 let sr :=
                   note_entry pageNumber level frameIndex value
                     updatedPathToPage sr in
                 let '(sr, st) :=
                   findFrame fuel' pageNumber (i32 (frameAddress + i))
                     (level + 1) currFrameOffset value updatedPathToPage
                     forbiddenFrame addressToAdd sr st in
                 (false, sr, st, maxFrameIndex sr =? -1))
            (true, sr, st) in
        if returned then (sr, st)
        else adopt parentAddress frameIndex forbiddenFrame addressToAdd
               allZeroFrames sr st
      else (sr, st)
  end.

Definition initial_search (frameIndex : Z) : search :=
  mkSearch 0 (-1) 0 0 0 frameIndex (u64 (-1)).

(** The selector as [addFrame] calls it: from the root, at level 0. *)
Definition selector (pageNumber currFrameOffset forbiddenFrame
    frameIndex addressToAddTo : Z) (st : pm) : search * pm :=
  findFrame (Z.to_nat TABLES_DEPTH) pageNumber (-1) 0 currFrameOffset 0 0
    forbiddenFrame addressToAddTo (initial_search frameIndex) st.

(** The leaf-or-table split that ends each of the three branches. *)
Definition fill (level frame pageNumber forbiddenFrame : Z) (st : pm) : Z * pm :=
  if level =? TABLES_DEPTH - 1
  then (forbiddenFrame, PMrestore frame pageNumber st)
  else (u64 frame, emptyFrame (u64 (frame * PAGE_SIZE)) st).

(** [addFrame]: returns the new [forbiddenFrame], the new
    [currentFrameIndex] (the caller's [frameIndex], passed by reference)
    and the backend state. *)
Definition addFrame (pageNumber currFrameOffset level forbiddenFrame
    frameIndex addressToAddTo : Z) (st : pm) : Z * Z * pm :=
  let '(sr, st) :=
    selector pageNumber currFrameOffset forbiddenFrame frameIndex
      addressToAddTo st in
  if maxFrameIndex sr =? -1 then
    let '(forbiddenFrame, st) :=
      fill level (zeroFrameIndex sr) pageNumber forbiddenFrame st in
    (forbiddenFrame, currentFrameIndex sr, st)
  else if maxFrameIndex sr + 1 <? NUM_FRAMES then
    let st := PMwrite addressToAddTo (maxFrameIndex sr + 1) st in
    let '(forbiddenFrame, st) :=
      fill level (maxFrameIndex sr + 1) pageNumber forbiddenFrame st in
    (forbiddenFrame, i32 (maxFrameIndex sr + 1), st)
  else
    let st := PMevict (frameToEvict sr) (pageToEvict sr) st in
    let st :=
      PMwrite (u64 (parentOfPageToEvict sr * PAGE_SIZE
                    + getOffset (pageToEvict sr))) 0 st in
    let st := PMwrite addressToAddTo (i32 (frameToEvict sr)) st in
    let '(forbiddenFrame, st) :=
      fill level (frameToEvict sr) pageNumber forbiddenFrame st in
    (forbiddenFrame, i32 (frameToEvict sr), st).

(** The slot index that the loop of [translateVirtualAddress] computes
    for [level]: [currFrameOffset]. *)
Definition level_offset (virtualAddress level : Z) : Z :=
  let bitsToExtract := i32 (Z.shiftl 1 (OFFSET_WIDTH cfg) - 1) in
  let numBitsToShift := u64 ((TABLES_DEPTH - level) * OFFSET_WIDTH cfg) in
  let currFrameOffset := Z.shiftr virtualAddress numBitsToShift in
  Z.land currFrameOffset (u64 bitsToExtract).

(** One iteration of the loop of [translateVirtualAddress]. *)
Definition walk_level (virtualAddress level : Z) (s : Z * Z * pm) : Z * Z * pm :=
  let '(frameIndex, forbiddenFrame, st) := s in
  let pageNumber := Z.shiftr virtualAddress (OFFSET_WIDTH cfg) in
  let currFrameOffset := level_offset virtualAddress level in
  let addressToAddTo := u64 (frameIndex * PAGE_SIZE + currFrameOffset) in
  let '(frameIndex, st) := PMread addressToAddTo st in
  if frameIndex =? 0 then
    let '(forbiddenFrame, frameIndex, st) :=
      addFrame pageNumber currFrameOffset level forbiddenFrame frameIndex
        addressToAddTo st in
    (frameIndex, forbiddenFrame, st)
  else (frameIndex, forbiddenFrame, st).

(** [n] iterations of that loop, from [level]. *)
Definition walk (n : nat) (virtualAddress level : Z) (s : Z * Z * pm)
  : Z * Z * pm :=
  fst (for_loop n level (fun level s => (walk_level virtualAddress level s, false)) s).

Definition translateVirtualAddress (virtualAddress : Z) (st : pm) : Z * pm :=
  let '(frameIndex, _, st) :=
    walk (Z.to_nat TABLES_DEPTH) virtualAddress 0 (0, 0, st) in
  let pageOffset := getOffset virtualAddress in
  (u64 (frameIndex * PAGE_SIZE + pageOffset), st).

(** [VMread]: [value] is the cell behind the pointer, [None] for a null
    pointer; the result is the return code, the cell and the backend
    state. *)
Definition VMread (virtualAddress : Z) (value : option Z) (st : pm)
  : Z * option Z * pm :=
  match value with
  | None => (0, value, st)
  | Some _ =>
      if VIRTUAL_MEMORY_SIZE <=? virtualAddress then (0, value, st)
      else
        let '(physicalAddress, st) := translateVirtualAddress virtualAddress st in
        let '(w, st) := PMread physicalAddress st in
        (1, Some w, st)
  end.

Definition VMwrite (virtualAddress value : Z) (st : pm) : Z * pm :=
  if VIRTUAL_MEMORY_SIZE <=? virtualAddress then (0, st)
  else
    let '(physicalAddress, st) := translateVirtualAddress virtualAddress st in
    (1, PMwrite physicalAddress value st).

(** *** Vocabulary of the specification *)

(** The cyclic distance of two page numbers, as the specification
    writes it: min(|q - p|, NUM_PAGES - |q - p|). *)
Definition cyclic_distance (q p : Z) : Z :=
  Z.min (Z.abs (q - p)) (NUM_PAGES - Z.abs (q - p)).

(** The word that [findFrame] reads for slot [i] of the table in frame
    [frameIndex]. *)
Definition entry (m : gmap Z Z) (frameIndex i : Z) : Z :=
  i32 (word_at m (u64 (i32 (i32 (frameIndex * PAGE_SIZE) + i)))).

(** The resident pages below the table in frame [frameIndex] of level
    [level], in the order of the depth-first walk (ascending slots):
    page number, frame of the parent table, frame of the page. *)
Fixpoint leaves (fuel : nat) (m : gmap Z Z) (level frameIndex pathToPage : Z)
  : list (Z * Z * Z) :=
  match fuel with
  | O => []
  | Datatypes.S fuel' =>
      if level <? TABLES_DEPTH then
        flat_map
          (fun i =>
             let value := entry m frameIndex i in
             if value =? 0 then []
             else
               let path := concatenatePath pathToPage i in
               (if level =? TABLES_DEPTH - 1
                then [(path, u64 frameIndex, u64 value)] else [])
               ++ leaves fuel' m (level + 1) value path)
          slots
      else []
  end.

Definition resident_leaves (m : gmap Z Z) : list (Z * Z * Z) :=
  leaves (Z.to_nat TABLES_DEPTH) m 0 0 0.

(** The non-zero parent slots of the tree below the table in frame
    [frameIndex]: address of the slot and frame it references. *)
Fixpoint parent_slots (fuel : nat) (m : gmap Z Z) (level frameIndex : Z)
  : list (Z * Z) :=
  match fuel with
  | O => []
  | Datatypes.S fuel' =>
      if level <? TABLES_DEPTH then
        flat_map
          (fun i =>
             let value := entry m frameIndex i in
             if value =? 0 then []
             else (u64 (i32 (i32 (frameIndex * PAGE_SIZE) + i)), value)
                  :: parent_slots fuel' m (level + 1) value)
          slots
      else []
  end.

Definition tree_slots (m : gmap Z Z) : list (Z * Z) :=
  parent_slots (Z.to_nat TABLES_DEPTH) m 0 0.

(** The running best of [findFrame] as a left fold: a candidate replaces
    the best only when it is strictly farther. *)
Definition better (pageNumber : Z) (best : Z * (Z * Z * Z)) (c : Z * Z * Z)
  : Z * (Z * Z * Z) :=
  let d := i32 (findCyclicDistance pageNumber (fst (fst c))) in
  if fst best <? d then (d, c) else best.

Definition victim (sr : search) : Z * (Z * Z * Z) :=
  (maxCyclicalDistance sr, (pageToEvict sr, parentOfPageToEvict sr, frameToEvict sr)).

(** A backend call that changes a word of frame 0. *)
Definition changes_root (e : event) : Prop :=
  match e with
  | EvWrite a _ => 0 <= a < PAGE_SIZE
  | EvRestore f _ => f = 0
  | _ => False
  end.

Definition is_read (e : event) : Prop :=
  match e with EvRead _ => True | _ => False end.

(** The range of an [int]. *)
Definition int_range (z : Z) : Prop := - 2 ^ 31 <= z < 2 ^ 31.

Definition zero_write (e : event) : Prop := exists a, e = EvWrite a 0.

(** What a run of [findFrame] that adopts no table does, from the
    variables [sr] and the backend [st]: it only reads, and it folds the
    candidates [L] into the running best. *)
Definition kept (pageNumber : Z) (L : list (Z * Z * Z))
    (sr : search) (st : pm) (sr' : search) (st' : pm) : Prop :=
  0 <= maxFrameIndex sr' < 2 ^ 31
  /\ ram st' = ram st /\ swap st' = swap st
  /\ (exists rs, calls st' = calls st ++ rs /\ Forall is_read rs)
  /\ victim sr' = fold_left (better pageNumber) L (victim sr)
  /\ currentFrameIndex sr' = currentFrameIndex sr
  /\ zeroFrameIndex sr' = zeroFrameIndex sr.

(** What a run of [findFrame] that adopts an all-zero table does: after
    reading, it writes at most one detaching zero and then the adopted
    frame into the faulting slot. *)
Definition adopted (forbiddenFrame addressToAdd : Z)
    (st : pm) (sr' : search) (st' : pm) : Prop :=
  maxFrameIndex sr' = -1 /\ swap st' = swap st
  /\ exists f rs detach,
      int_range f /\ u64 f <> forbiddenFrame
      /\ zeroFrameIndex sr' = u64 f /\ currentFrameIndex sr' = f
      /\ calls st' = calls st ++ rs ++ detach ++ [EvWrite (u64 addressToAdd) f]
      /\ Forall is_read rs /\ Forall zero_write detach.

(** The backend calls that zero the frame [frame]. *)
Definition zeroing (frame : Z) : list event :=
  map (fun i => EvWrite (u64 (u64 (frame * PAGE_SIZE) + i)) 0) slots.

(** The backend calls that end an allocation at [level]: the restore of
    the page at the last level of tables, the zeroing of the new table
    above it. *)
Definition filling (level frame pageNumber : Z) : list event :=
  if level =? TABLES_DEPTH - 1
  then [EvRestore (u64 frame) (u64 pageNumber)]
  else zeroing frame.

(** *** Requests *)

Inductive request :=
| Read (virtualAddress : Z)
| Write (virtualAddress value : Z).

Definition serve (st : pm) (r : request) : pm :=
  match r with
  | Read v => snd (VMread v (Some 0) st)
  | Write v w => snd (VMwrite v w st)
  end.

Definition serve_all (rs : list request) (st : pm) : pm :=
  fold_left serve rs st.

(** The state after [VMinitialize] on a physical memory of zeros with an
    empty backing store. *)
Definition boot : pm := VMinitialize (mkPm ∅ ∅ []).

(** The value that [VMread] stores through its pointer. *)
Definition read_word (virtualAddress : Z) (st : pm) : option Z :=
  snd (fst (VMread virtualAddress (Some 0) st)).

(** The backend calls made after the first [n]. *)
Definition calls_after (n : nat) (st : pm) : list event := drop n (calls st).

End VirtualMemory.

(** ** Configurations of the scenarios *)

(** TABLES_DEPTH = 2, PAGE_SIZE = 2, NUM_FRAMES = 4, NUM_PAGES = 4. *)
Definition cfg_two_levels : Config :=
  {| OFFSET_WIDTH := 1; VIRTUAL_ADDRESS_WIDTH := 3; PHYSICAL_ADDRESS_WIDTH := 3 |}.

(** The representative configuration of the specification:
  TABLES_DEPTH = 4, PAGE_SIZE = 2, NUM_FRAMES = 4, NUM_PAGES = 16. *)
Definition cfg_spec : Config :=
  {| OFFSET_WIDTH := 1; VIRTUAL_ADDRESS_WIDTH := 5; PHYSICAL_ADDRESS_WIDTH := 3 |}.

(** The same address layout with twice the frames:
  TABLES_DEPTH = 4, PAGE_SIZE = 2, NUM_FRAMES = 8, NUM_PAGES = 16. *)
Definition cfg_four_levels : Config :=
  {| OFFSET_WIDTH := 1; VIRTUAL_ADDRESS_WIDTH := 5; PHYSICAL_ADDRESS_WIDTH := 4 |}.

(** The words of the physical memory, frame by frame. *)
Definition dump (cfg : Config) (st : pm) : list Z :=
  map (word_at (ram st)) (range 0 (Z.to_nat (RAM_SIZE cfg))).

(** ** States of the scenarios *)

(** Two levels: pages 0 and 1 resident under one table; every frame in
    use. *)
Definition two_pages_resident : pm :=
  serve_all cfg_two_levels [Write 0 5; Write 2 6] (boot cfg_two_levels).

(** Two levels: page 0 was evicted for page 2; its table (frame 1) is left
    all-zero under slot 0 of the root. *)
Definition table_emptied : pm :=
  serve_all cfg_two_levels [Write 0 5; Write 4 6] (boot cfg_two_levels).

(** Four levels, eight frames, after reads of pages 0, 2, 4 and 0. *)
Definition stale_table : pm :=
  serve_all cfg_four_levels [Read 0; Read 4; Read 8; Read 0] (boot cfg_four_levels).

(** That state inside the translation of address 8: after levels 0, 1 and
    2, and after the read of the slot of level 3. *)
Definition stale_table_walked : Z * Z * pm :=
  walk cfg_four_levels 3 8 0 (0, 0, stale_table).

Definition stale_table_at_level_3 : pm :=
  snd (PMread 14 (snd stale_table_walked)).

(** Four levels, eight frames, after reads of pages 0, 8, 0, 9 and 0. *)
Definition leaked_frames : pm :=
  serve_all cfg_four_levels [Read 0; Read 16; Read 0; Read 18; Read 0]
    (boot cfg_four_levels).

(** That state inside the translation of address 0: after levels 0, 1 and
    2, and after the read of the slot of level 3. *)
Definition leaked_frames_walked : Z * Z * pm :=
  walk cfg_four_levels 3 0 0 (0, 0, leaked_frames).

Definition leaked_frames_at_level_3 : pm :=
  snd (PMread 10 (snd leaked_frames_walked)).

(** Page numbers of 32 bits in four levels of 8 bits:
    TABLES_DEPTH = 4, PAGE_SIZE = 256, NUM_FRAMES = 8, NUM_PAGES = 2^32. *)
Definition cfg_wide_pages : Config :=
  {| OFFSET_WIDTH := 8; VIRTUAL_ADDRESS_WIDTH := 40; PHYSICAL_ADDRESS_WIDTH := 11 |}.

(** That configuration after reads of pages 2^31, 2^31 + 1, 2^31 + 2 and
    2^31 + 3: the four pages are resident under one table and every frame
    is in use. *)
Definition far_pages_resident : pm :=
  serve_all cfg_wide_pages
    [Read (2 ^ 39); Read (2 ^ 39 + 256); Read (2 ^ 39 + 512); Read (2 ^ 39 + 768)]
    (boot cfg_wide_pages).

(** That state inside the translation of address 0, after the read of the
    slot of level 0. *)
Definition far_pages_at_level_0 : pm :=
  snd (PMread 0 far_pages_resident).

(** ** Vocabulary of the further properties *)

Section Residency.

Variable cfg : Config.

(** The walk of [translateVirtualAddress] read off the tables alone: the
    frame reached after [n] levels, from the table in [frameIndex] at
    [level], when no slot on the way holds 0; [None] when one does (the
    walk would call [addFrame]). *)
Fixpoint resolve (n : nat) (m : gmap Z Z) (virtualAddress level frameIndex : Z)
  : option Z :=
  match n with
  | O => Some frameIndex
  | Datatypes.S n' =>
      let addressToAddTo :=
        u64 (frameIndex * PAGE_SIZE cfg + level_offset cfg virtualAddress level) in
      let next := i32 (word_at m (u64 addressToAddTo)) in
      if next =? 0 then None
      else resolve n' m virtualAddress (level + 1) next
  end.

(** The frame that holds the page of [virtualAddress], when every table
    on its path is in place. *)
Definition resident_frame (m : gmap Z Z) (virtualAddress : Z) : option Z :=
  resolve (Z.to_nat (TABLES_DEPTH cfg)) m virtualAddress 0 0.

Definition is_evict (e : event) : bool :=
  match e with EvEvict _ _ => true | _ => false end.

Definition is_restore (e : event) : bool :=
  match e with EvRestore _ _ => true | _ => false end.

(** The numbers of PMevict and of PMrestore calls in a record of calls. *)
Definition evictions (l : list event) : nat := length (List.filter is_evict l).
Definition restores (l : list event) : nat := length (List.filter is_restore l).


(** A parent slot [(address, value)] whose value is a frame of the physical
    memory holds at most [bound]: what the running [maxFrameIndex] says of
    the slots that [findFrame] has passed. *)
Definition below (bound : Z) (s : Z * Z) : Prop :=
  snd s < NUM_FRAMES cfg -> snd s <= bound.

End Residency.

(** Two levels: page 0 resident, frame 3 never used. *)
Definition one_page_resident : pm :=
  serve_all cfg_two_levels [Write 0 5] (boot cfg_two_levels).

(** ** Machine integers: ranges *)

Section MachineIntFacts.

Lemma i32_range z : - 2 ^ 31 <= i32 z < 2 ^ 31.
Proof. unfold i32. pose proof (Z.mod_pos_bound (z + 2 ^ 31) (2 ^ 32)). lia. Qed.

Lemma i32_id z : - 2 ^ 31 <= z < 2 ^ 31 -> i32 z = z.
Proof. intros H. unfold i32. rewrite Z.mod_small; lia. Qed.

Lemma i32_i32 z : i32 (i32 z) = i32 z.
Proof. apply i32_id, i32_range. Qed.

Lemma u64_range z : 0 <= u64 z < 2 ^ 64.
Proof. unfold u64. apply Z.mod_pos_bound. lia. Qed.

Lemma u64_id z : 0 <= z < 2 ^ 64 -> u64 z = z.
Proof. intros H. unfold u64. apply Z.mod_small. lia. Qed.

Lemma u64_int_nonzero z : - 2 ^ 31 <= z < 2 ^ 31 -> z <> 0 -> u64 z <> 0.
Proof. intros Hr Hz. unfold u64. Z.div_mod_to_equations. lia. Qed.

Lemma u64_u64 z : u64 (u64 z) = u64 z.
Proof. apply u64_id, u64_range. Qed.

Lemma i32_u64_int z : - 2 ^ 31 <= z < 2 ^ 31 -> i32 (u64 z) = z.
Proof. intros Hr. unfold i32, u64. Z.div_mod_to_equations. lia. Qed.

Lemma i64_u64_int z : - 2 ^ 63 <= z < 2 ^ 63 -> i64 (u64 z) = z.
Proof. intros Hr. unfold i64, u64. Z.div_mod_to_equations. lia. Qed.

Lemma i64_id z : - 2 ^ 63 <= z < 2 ^ 63 -> i64 z = z.
Proof. intros H. unfold i64. rewrite Z.mod_small; lia. Qed.

Lemma i32_succ_nonzero z : 0 <= z < 2 ^ 31 -> i32 (z + 1) <> 0.
Proof. intros Hr. unfold i32. Z.div_mod_to_equations. lia. Qed.

End MachineIntFacts.

(** ** The frame selector *)

Section FrameSelector.

Variable cfg : Config.

Lemma entry_range m f i : int_range (entry cfg m f i).
Proof. apply i32_range. Qed.

Lemma victim_note_entry q level frameIndex value path sr :
  victim (note_entry cfg q level frameIndex value path sr)
  = fold_left (better cfg q)
      (if level =? TABLES_DEPTH cfg - 1
       then [(path, u64 frameIndex, u64 value)] else [])
      (victim sr).
Proof.
  unfold note_entry.
  set (sr1 := if _ && _ then set_max value sr else sr).
  assert (Hv : victim sr1 = victim sr) by (subst sr1; destruct (_ && _); reflexivity).
  destruct (level =? TABLES_DEPTH cfg - 1); cbn [fold_left]; [|exact Hv].
  rewrite <- Hv. unfold better, victim. cbn [fst snd].
  destruct (maxCyclicalDistance sr1 <? _); reflexivity.
Qed.

Lemma max_note_entry q level frameIndex value path sr :
  int_range value ->
  0 <= maxFrameIndex sr < 2 ^ 31 ->
  0 <= maxFrameIndex (note_entry cfg q level frameIndex value path sr) < 2 ^ 31.
Proof.
  intros Hv Hm. unfold note_entry, int_range in *.
  set (sr1 := if _ && _ then set_max value sr else sr).
  assert (H1 : 0 <= maxFrameIndex sr1 < 2 ^ 31).
  { subst sr1. destruct (maxFrameIndex sr <? value) eqn:E; cbn [andb]; [|lia].
    destruct (value <? NUM_FRAMES cfg); cbn [set_max maxFrameIndex]; lia. }
  destruct (level =? _); [|exact H1].
  destruct (maxCyclicalDistance sr1 <? _); exact H1.
Qed.

Lemma refs_note_entry q level frameIndex value path sr :
  currentFrameIndex (note_entry cfg q level frameIndex value path sr)
  = currentFrameIndex sr
  /\ zeroFrameIndex (note_entry cfg q level frameIndex value path sr)
     = zeroFrameIndex sr.
Proof.
  unfold note_entry.
  destruct (_ && _); destruct (level =? _);
    try destruct (_ <? i32 _); split; reflexivity.
Qed.

Lemma kept_refl q sr st :
  0 <= maxFrameIndex sr < 2 ^ 31 -> kept cfg q [] sr st sr st.
Proof.
  intros H. unfold kept. repeat split; try lia.
  exists []. rewrite app_nil_r. split; [reflexivity | constructor].
Qed.

Lemma kept_trans q L1 L2 sr st sr1 st1 sr2 st2 :
  kept cfg q L1 sr st sr1 st1 -> kept cfg q L2 sr1 st1 sr2 st2 ->
  kept cfg q (L1 ++ L2) sr st sr2 st2.
Proof.
  intros (_ & Hr1 & Hs1 & (rs1 & Hc1 & Hf1) & Hv1 & Hcu1 & Hz1)
         (Hm2 & Hr2 & Hs2 & (rs2 & Hc2 & Hf2) & Hv2 & Hcu2 & Hz2).
  unfold kept. split; [exact Hm2|].
  split; [congruence|]. split; [congruence|].
  split.
  { exists (rs1 ++ rs2). split.
    - rewrite Hc2, Hc1, app_assoc. reflexivity.
    - apply Forall_app; split; assumption. }
  split; [rewrite fold_left_app, <- Hv1; exact Hv2|].
  split; congruence.
Qed.

Lemma kept_adopted q L forb addr sr st sr1 st1 sr2 st2 :
  kept cfg q L sr st sr1 st1 -> adopted forb addr st1 sr2 st2 ->
  adopted forb addr st sr2 st2.
Proof.
  intros (_ & Hr1 & Hs1 & (rs1 & Hc1 & Hf1) & _)
         (Hm & Hs2 & f & rs & detach & Hf & Hforb & Hz & Hcu & Hc & Hrs & Hd).
  unfold adopted. split; [exact Hm|]. split; [congruence|].
  exists f, (rs1 ++ rs), detach. repeat split; try assumption; try apply Hf.
  - rewrite Hc, Hc1, <- !app_assoc. reflexivity.
  - apply Forall_app; split; assumption.
Qed.

Lemma kept_read q a sr st :
  0 <= maxFrameIndex sr < 2 ^ 31 ->
  kept cfg q [] sr st sr (record (EvRead a) st).
Proof.
  intros H. unfold kept, record; cbn [ram swap calls]. repeat split; try lia.
  exists [EvRead a]. split; [reflexivity|]. repeat constructor.
Qed.

Lemma adopt_spec q parent frameIndex forb addr allZero sr st :
  int_range frameIndex ->
  0 <= maxFrameIndex sr < 2 ^ 31 ->
  let r := adopt parent frameIndex forb addr allZero sr st in
  kept cfg q [] sr st (fst r) (snd r) \/ adopted forb addr st (fst r) (snd r).
Proof.
  intros Hf Hm. unfold adopt.
  destruct (allZero && negb (maxFrameIndex sr =? -1)
            && negb (u64 frameIndex =? forb)) eqn:E; cbn zeta.
  - right. apply andb_prop in E as [_ E].
    apply negb_true_iff, Z.eqb_neq in E.
    unfold adopted. cbn [fst snd set_adopted maxFrameIndex zeroFrameIndex currentFrameIndex].
    split; [reflexivity|].
    split; [destruct (parent =? -1); reflexivity|].
    exists frameIndex, [],
      (if parent =? -1 then [] else [EvWrite (u64 parent) 0]).
    split; [exact Hf|]. split; [exact E|]. split; [reflexivity|].
    split; [apply i32_id, Hf|].
    split.
    { unfold PMwrite. rewrite i32_i32, (i32_id frameIndex) by exact Hf.
      destruct (parent =? -1); cbn [calls app].
      - reflexivity.
      - rewrite <- app_assoc. reflexivity. }
    split; [constructor|].
    destruct (parent =? -1); repeat constructor. exists (u64 parent). reflexivity.
  - left. cbn [fst snd]. apply kept_refl. exact Hm.
Qed.

Lemma findFrame_spec fuel : forall q parent level off frameIndex path forb addr sr st,
  int_range frameIndex ->
  0 <= maxFrameIndex sr < 2 ^ 31 ->
  let r := findFrame cfg fuel q parent level off frameIndex path forb addr sr st in
  kept cfg q (leaves cfg fuel (ram st) level frameIndex path) sr st (fst r) (snd r)
  \/ adopted forb addr st (fst r) (snd r).
Proof.
  induction fuel as [|fuel IH]; intros q parent level off frameIndex path forb addr sr st Hf Hm.
  - left. cbn. apply kept_refl. exact Hm.
  - cbn [findFrame leaves].
    destruct (level <? TABLES_DEPTH cfg); [|left; apply kept_refl; exact Hm].
    unfold slots.
    set (body := fun (i : Z) '(allZeroFrames, sr, st) => _).
    set (g := fun i : Z => _).
    assert (Hloop : forall n i allZ sr0 st0,
      0 <= maxFrameIndex sr0 < 2 ^ 31 -> ram st0 = ram st ->
      let r := for_loop n i body (allZ, sr0, st0) in
      (snd r = false /\ kept cfg q (flat_map g (range i n)) sr0 st0 (snd (fst (fst r))) (snd (fst r)))
      \/ (snd r = true /\ adopted forb addr st0 (snd (fst (fst r))) (snd (fst r)))).
    { induction n as [|n IHn]; intros i allZ sr0 st0 Hm0 Hram.
      - left. cbn. split; [reflexivity|]. apply kept_refl. exact Hm0.
      - cbn [range flat_map]. cbv zeta.
        pose proof (entry_range (ram st0) frameIndex i) as Hv.
        set (st1 := record (EvRead (u64 (i32 (i32 (frameIndex * PAGE_SIZE cfg) + i)))) st0).
        assert (Hk1 : kept cfg q [] sr0 st0 sr0 st1) by (apply kept_read; exact Hm0).
        assert (Hram1 : ram st1 = ram st) by exact Hram.
        unfold g at 1. rewrite <- Hram.
        set (value := entry cfg (ram st0) frameIndex i) in *.
        set (path' := concatenatePath cfg path i).
        set (sr1 := note_entry cfg q level frameIndex value path' sr0).
        assert (Hb : body i (allZ, sr0, st0)
                     = if value =? 0 then (allZ, sr0, st1, false)
                       else let r := findFrame cfg fuel q
                              (i32 (i32 (frameIndex * PAGE_SIZE cfg) + i))
                              (level + 1) off value path' forb addr sr1 st1 in
                            (false, fst r, snd r, maxFrameIndex (fst r) =? -1)).
        { unfold body, PMread. cbv zeta.
          change (i32 (word_at (ram st0)
                    (u64 (i32 (i32 (frameIndex * PAGE_SIZE cfg) + i))))) with value.
          fold st1. destruct (value =? 0); [reflexivity|].
          fold path'. fold sr1. destruct (findFrame _ _ _ _ _ _ _ _ _ _ _ _). reflexivity. }
        cbn [for_loop]. rewrite Hb. clear Hb.
        destruct (value =? 0) eqn:Ez.
        + specialize (IHn (i + 1) allZ sr0 st1 Hm0 Hram1).
          cbv zeta in IHn. cbn [app].
          destruct IHn as [[Hr Hk] | [Hr Ha]].
          * left. split; [exact Hr|]. exact (kept_trans q [] _ _ _ _ _ _ _ Hk1 Hk).
          * right. split; [exact Hr|]. exact (kept_adopted q [] _ _ _ _ _ _ _ _ Hk1 Ha).
        + cbv zeta.
          assert (Hm1 : 0 <= maxFrameIndex sr1 < 2 ^ 31)
            by (apply max_note_entry; assumption).
          pose proof (IH q (i32 (i32 (frameIndex * PAGE_SIZE cfg) + i))
                        (level + 1) off value path' forb addr sr1 st1 Hv Hm1) as Hrec.
          cbv zeta in Hrec. rewrite Hram1, <- Hram in Hrec.
          set (r := findFrame _ _ _ _ _ _ _ _ _ _ _ _) in *.
          assert (Hk0 : kept cfg q
                    (if level =? TABLES_DEPTH cfg - 1
                     then [(path', u64 frameIndex, u64 value)] else [])
                    sr0 st0 sr1 st1).
          { destruct Hk1 as (_ & Hr1 & Hs1 & Hc1 & _).
            destruct (refs_note_entry q level frameIndex value path' sr0) as [Hcu Hz].
            unfold kept. repeat split; try apply Hm1; try assumption.
            apply victim_note_entry. }
          destruct Hrec as [Hk | Ha].
          * assert (Hne : (maxFrameIndex (fst r) =? -1) = false).
            { apply Z.eqb_neq. destruct Hk as (Hm2 & _). lia. }
            rewrite Hne.
            pose proof (kept_trans q _ _ _ _ _ _ _ _ Hk0 Hk) as Hk2.
            assert (Hram2 : ram (snd r) = ram st).
            { destruct Hk as (_ & Hr2 & _). congruence. }
            assert (Hm2 : 0 <= maxFrameIndex (fst r) < 2 ^ 31) by apply Hk.
            specialize (IHn (i + 1) false (fst r) (snd r) Hm2 Hram2).
            cbv zeta in IHn.
            destruct IHn as [[Hr Hk3] | [Hr Ha]].
            -- left. split; [exact Hr|].
               exact (kept_trans q _ _ _ _ _ _ _ _ Hk2 Hk3).
            -- right. split; [exact Hr|].
               exact (kept_adopted q _ _ _ _ _ _ _ _ _ Hk2 Ha).
          * assert (Heq : (maxFrameIndex (fst r) =? -1) = true).
            { apply Z.eqb_eq. apply Ha. }
            rewrite Heq. right. cbn [fst snd]. split; [reflexivity|].
            exact (kept_adopted q _ _ _ _ _ _ _ _ _ Hk0 Ha).
    }
    specialize (Hloop (Z.to_nat (PAGE_SIZE cfg)) 0 true sr st Hm eq_refl).
    cbv zeta in Hloop. cbv zeta.
    destruct (for_loop (Z.to_nat (PAGE_SIZE cfg)) 0 body (true, sr, st))
      as [[[allZ sr'] st'] returned].
    cbn [fst snd] in Hloop.
    destruct Hloop as [[Hr Hk] | [Hr Ha]]; subst returned.
    + pose proof (adopt_spec q parent frameIndex forb addr allZ sr' st' Hf
                    (proj1 Hk)) as Hadopt.
      cbv zeta in Hadopt.
      destruct Hadopt as [Hk' | Ha'].
      * left. pose proof (kept_trans q _ _ _ _ _ _ _ _ Hk Hk') as Hk2.
        rewrite app_nil_r in Hk2. exact Hk2.
      * right. exact (kept_adopted q _ _ _ _ _ _ _ _ _ Hk Ha').
    + right. exact Ha.
Qed.
Lemma for_loop_ext {S : Type} (b1 b2 : Z -> S -> S * bool) n :
  (forall i s, b1 i s = b2 i s) ->
  forall i s, for_loop n i b1 s = for_loop n i b2 s.
Proof.
  intros Hb. induction n as [|n IH]; intros i s; cbn [for_loop]; [reflexivity|].
  rewrite Hb. destruct (b2 i s) as [s' [|]]; [reflexivity | apply IH].
Qed.

(** The unfolding of [findFrame] at a positive fuel. *)
Lemma findFrame_S fuel q parent level off frameIndex path forb addr sr st :
  findFrame cfg (Datatypes.S fuel) q parent level off frameIndex path forb addr sr st
  = if level <? TABLES_DEPTH cfg then
      let frameAddress := i32 (frameIndex * PAGE_SIZE cfg) in
      let '(allZeroFrames, sr, st, returned) :=
        for_loop (Z.to_nat (PAGE_SIZE cfg)) 0
          (fun i '(allZeroFrames, sr, st) =>
             let '(value, st) := PMread (i32 (frameAddress + i)) st in
             if value =? 0 then (allZeroFrames, sr, st, false)
             else
               let updatedPathToPage := concatenatePath cfg path i in
               let sr := note_entry cfg q level frameIndex value
                           updatedPathToPage sr in
               let '(sr, st) :=
                 findFrame cfg fuel q (i32 (frameAddress + i))
                   (level + 1) off value updatedPathToPage forb addr sr st in
               (false, sr, st, maxFrameIndex sr =? -1))
          (true, sr, st) in
      if returned then (sr, st)
      else adopt parent frameIndex forb addr allZeroFrames sr st
    else (sr, st).
Proof. reflexivity. Qed.

(** The fuel never cuts the recursion of [findFrame]: the guard
    [level < TABLES_DEPTH] stops it first, so more fuel than
    [TABLES_DEPTH - level] changes nothing. *)
Lemma findFrame_fuel fuel : forall q parent level off frameIndex path forb addr sr st,
  TABLES_DEPTH cfg - level <= Z.of_nat fuel ->
  findFrame cfg (Datatypes.S fuel) q parent level off frameIndex path forb addr sr st
  = findFrame cfg fuel q parent level off frameIndex path forb addr sr st.
Proof.
  induction fuel as [|fuel IH]; intros q parent level off frameIndex path forb addr sr st Hle.
  - cbn [findFrame]. destruct (level <? TABLES_DEPTH cfg) eqn:E; [|reflexivity].
    apply Z.ltb_lt in E. lia.
  - rewrite (findFrame_S (Datatypes.S fuel)), (findFrame_S fuel).
    destruct (level <? TABLES_DEPTH cfg); [|reflexivity].
    cbv zeta.
    erewrite for_loop_ext; [reflexivity|].
    intros i [[allZ sr0] st0]. cbv beta iota.
    destruct (PMread _ st0) as [value st1].
    destruct (value =? 0); [reflexivity|].
    rewrite IH by lia. reflexivity.
Qed.

Lemma selector_fuel extra q off forb cur addr st :
  0 <= TABLES_DEPTH cfg ->
  findFrame cfg (Z.to_nat (TABLES_DEPTH cfg) + extra) q (-1) 0 off 0 0 forb addr
    (initial_search cur) st
  = selector cfg q off forb cur addr st.
Proof.
  intros Hd. unfold selector. induction extra as [|extra IH].
  - rewrite Nat.add_0_r. reflexivity.
  - rewrite <- plus_n_Sm, findFrame_fuel by lia. exact IH.
Qed.

Lemma selector_spec q off forb cur addr st :
  let r := selector cfg q off forb cur addr st in
  kept cfg q (resident_leaves cfg (ram st)) (initial_search cur) st (fst r) (snd r)
  \/ adopted forb addr st (fst r) (snd r).
Proof.
  unfold selector, resident_leaves. apply findFrame_spec.
  - unfold int_range. lia.
  - cbn. lia.
Qed.

(** The running best over a list of candidates: either no candidate
    beat the initial best, or the result is the first candidate of
    greatest distance. *)
Lemma first_farthest q L : forall best,
  let d := fun c : Z * Z * Z => i32 (findCyclicDistance cfg q (fst (fst c))) in
  let r := fold_left (better cfg q) L best in
  (r = best /\ Forall (fun c => d c <= fst best) L)
  \/ (exists before after,
        L = before ++ snd r :: after
        /\ fst r = d (snd r) /\ fst best < d (snd r)
        /\ Forall (fun c => d c < d (snd r)) before
        /\ Forall (fun c => d c <= d (snd r)) after).
Proof.
  induction L as [|c L IH]; intros best d r.
  - left. split; [reflexivity | constructor].
  - subst r. cbn [fold_left].
    specialize (IH (better cfg q best c)). cbv zeta in IH. fold d in IH.
    set (r := fold_left (better cfg q) L (better cfg q best c)) in *.
    assert (Hb : (better cfg q best c = best /\ d c <= fst best)
                 \/ (better cfg q best c = (d c, c) /\ fst best < d c)).
    { unfold better. fold (d c). destruct (fst best <? d c) eqn:E.
      - right. apply Z.ltb_lt in E. split; [reflexivity | exact E].
      - left. apply Z.ltb_ge in E. split; [reflexivity | exact E]. }
    destruct IH as [[Hr Hall] | (before & after & HL & Hd & Hlt & Hbef & Haft)].
    + destruct Hb as [[Hb Hle] | [Hb Hlt]].
      * left. rewrite Hr, Hb. split; [reflexivity|].
        constructor; [exact Hle|]. rewrite Hb in Hall. exact Hall.
      * right. exists [], L. rewrite Hr, Hb. cbn [fst snd app].
        repeat split; try assumption; try constructor.
        rewrite Hb in Hall. exact Hall.
    + right. exists (c :: before), after. rewrite HL at 1.
      split; [reflexivity|]. split; [exact Hd|].
      destruct Hb as [[Hb Hle] | [Hb Hlt']]; rewrite Hb in Hlt; cbn [fst] in Hlt.
      * repeat split; try assumption; try lia. constructor; [lia | exact Hbef].
      * repeat split; try assumption; try lia. constructor; [lia | exact Hbef].
Qed.

(** Every candidate names a frame that a non-zero table entry holds. *)
Lemma leaves_frames fuel m : forall level frameIndex path,
  Forall (fun c => exists v, int_range v /\ v <> 0 /\ snd c = u64 v)
    (leaves cfg fuel m level frameIndex path).
Proof.
  induction fuel as [|fuel IH]; intros level frameIndex path; cbn [leaves].
  - constructor.
  - destruct (level <? TABLES_DEPTH cfg); [|constructor].
    induction (slots cfg) as [|i l IHl]; cbn [flat_map]; [constructor|].
    apply Forall_app. split; [|exact IHl].
    destruct (entry cfg m frameIndex i =? 0) eqn:E; [constructor|].
    apply Z.eqb_neq in E. apply Forall_app. split; [|apply IH].
    destruct (level =? TABLES_DEPTH cfg - 1); [|constructor].
    constructor; [|constructor].
    exists (entry cfg m frameIndex i). cbn [snd].
    split; [apply entry_range|]. split; [exact E | reflexivity].
Qed.

End FrameSelector.

(** ** The allocator *)

Section Allocator.

Variable cfg : Config.

Lemma word_at_insert (m : gmap Z Z) a v a' :
  word_at (<[a := v]> m) a' = if decide (a = a') then v else word_at m a'.
Proof.
  unfold word_at. destruct (decide (a = a')) as [->|Hne].
  - rewrite lookup_insert_eq. reflexivity.
  - rewrite lookup_insert_ne by exact Hne. reflexivity.
Qed.

Lemma emptyFrame_loop_calls fa n : forall i st,
  calls (fst (for_loop n i (fun offset st => (PMwrite (fa + offset) 0 st, false)) st))
  = calls st ++ map (fun i => EvWrite (u64 (fa + i)) 0) (range i n).
Proof.
  induction n as [|n IH]; intros i st; cbn [for_loop range map fst].
  - rewrite app_nil_r. reflexivity.
  - rewrite IH. unfold PMwrite. cbn [calls]. rewrite <- app_assoc. reflexivity.
Qed.

Lemma emptyFrame_loop_keeps_zero fa n : forall i st a,
  word_at (ram st) a = 0 ->
  word_at (ram (fst (for_loop n i
                       (fun offset st => (PMwrite (fa + offset) 0 st, false)) st))) a = 0.
Proof.
  induction n as [|n IH]; intros i st a Hz; cbn [for_loop fst]; [exact Hz|].
  apply IH. unfold PMwrite. cbn [ram]. rewrite word_at_insert.
  destruct (decide _); [reflexivity | exact Hz].
Qed.

Lemma emptyFrame_loop_zeroes fa n : forall i st,
  Forall (fun j =>
            word_at (ram (fst (for_loop n i
               (fun offset st => (PMwrite (fa + offset) 0 st, false)) st)))
              (u64 (fa + j)) = 0)
    (range i n).
Proof.
  induction n as [|n IH]; intros i st; cbn [range]; constructor.
  - cbn [for_loop fst]. apply emptyFrame_loop_keeps_zero.
    unfold PMwrite. cbn [ram]. rewrite word_at_insert.
    destruct (decide _) as [_|Hne]; [reflexivity | contradiction].
  - cbn [for_loop fst]. apply IH.
Qed.

Lemma emptyFrame_calls fa st :
  calls (emptyFrame cfg fa st)
  = calls st ++ map (fun i => EvWrite (u64 (fa + i)) 0) (slots cfg).
Proof. apply emptyFrame_loop_calls. Qed.

Lemma emptyFrame_zeroes fa st :
  Forall (fun i => word_at (ram (emptyFrame cfg fa st)) (u64 (fa + i)) = 0) (slots cfg).
Proof. apply emptyFrame_loop_zeroes. Qed.

Lemma fill_calls level frame q forb st :
  calls (snd (fill cfg level frame q forb st))
  = calls st ++ filling cfg level frame q.
Proof.
  unfold fill, filling. destruct (level =? TABLES_DEPTH cfg - 1); cbn [snd].
  - reflexivity.
  - apply emptyFrame_calls.
Qed.

Lemma fill_forbidden level frame q forb st :
  fst (fill cfg level frame q forb st)
  = if level =? TABLES_DEPTH cfg - 1 then forb else u64 frame.
Proof. unfold fill. destruct (level =? _); reflexivity. Qed.

Lemma fill_zeroes level frame q forb st :
  (level =? TABLES_DEPTH cfg - 1) = false ->
  Forall (fun i => word_at (ram (snd (fill cfg level frame q forb st)))
                     (u64 (u64 (frame * PAGE_SIZE cfg) + i)) = 0) (slots cfg).
Proof. intros E. unfold fill. rewrite E. cbn [snd]. apply emptyFrame_zeroes. Qed.

Lemma addFrame_cases q off level forb cur addr st :
  let sel := selector cfg q off forb cur addr st in
  let sr := fst sel in
  let r := addFrame cfg q off level forb cur addr st in
  exists chosen strategy,
    ((maxFrameIndex sr = -1
      /\ chosen = zeroFrameIndex sr /\ strategy = []
      /\ snd (fst r) = currentFrameIndex sr)
     \/ (maxFrameIndex sr <> -1 /\ maxFrameIndex sr + 1 < NUM_FRAMES cfg
         /\ chosen = maxFrameIndex sr + 1
         /\ strategy = [EvWrite (u64 addr) (i32 chosen)]
         /\ snd (fst r) = i32 chosen)
     \/ (maxFrameIndex sr <> -1 /\ NUM_FRAMES cfg <= maxFrameIndex sr + 1
         /\ chosen = frameToEvict sr
         /\ strategy =
              [EvEvict (u64 (frameToEvict sr)) (u64 (pageToEvict sr));
               EvWrite (u64 (u64 (parentOfPageToEvict sr * PAGE_SIZE cfg
                                  + getOffset cfg (pageToEvict sr)))) 0;
               EvWrite (u64 addr) (i32 chosen)]
         /\ snd (fst r) = i32 chosen))
    /\ calls (snd r) = calls (snd sel) ++ strategy ++ filling cfg level chosen q
    /\ (if level =? TABLES_DEPTH cfg - 1
        then fst (fst r) = forb
        else fst (fst r) = u64 chosen
             /\ Forall (fun i => word_at (ram (snd r))
                                   (u64 (u64 (chosen * PAGE_SIZE cfg) + i)) = 0)
                  (slots cfg)).
Proof.
  intros sel sr r. subst r. unfold addFrame. fold sel.
  destruct sel as [sr0 st0] eqn:Esel. subst sr. cbn [fst snd].
  destruct (maxFrameIndex sr0 =? -1) eqn:Ea.
  - apply Z.eqb_eq in Ea.
    exists (zeroFrameIndex sr0), [].
    pose proof (fill_calls level (zeroFrameIndex sr0) q forb st0) as Hc.
    pose proof (fill_forbidden level (zeroFrameIndex sr0) q forb st0) as Hf.
    pose proof (fill_zeroes level (zeroFrameIndex sr0) q forb st0) as Hz.
    destruct (fill cfg level (zeroFrameIndex sr0) q forb st0) as [forb' st'].
    cbn [fst snd] in *. split; [left; auto|]. split; [exact Hc|].
    destruct (level =? TABLES_DEPTH cfg - 1); [exact Hf | split; [exact Hf | auto]].
  - apply Z.eqb_neq in Ea.
    destruct (maxFrameIndex sr0 + 1 <? NUM_FRAMES cfg) eqn:Eb.
    + apply Z.ltb_lt in Eb.
      exists (maxFrameIndex sr0 + 1), [EvWrite (u64 addr) (i32 (maxFrameIndex sr0 + 1))].
      set (st1 := PMwrite addr (maxFrameIndex sr0 + 1) st0).
      pose proof (fill_calls level (maxFrameIndex sr0 + 1) q forb st1) as Hc.
      pose proof (fill_forbidden level (maxFrameIndex sr0 + 1) q forb st1) as Hf.
      pose proof (fill_zeroes level (maxFrameIndex sr0 + 1) q forb st1) as Hz.
      destruct (fill cfg level (maxFrameIndex sr0 + 1) q forb st1) as [forb' st'].
      cbn [fst snd] in *. split; [right; left; auto|].
      split; [rewrite Hc; subst st1; unfold PMwrite; cbn [calls];
              rewrite <- app_assoc; reflexivity|].
      destruct (level =? TABLES_DEPTH cfg - 1); [exact Hf | split; [exact Hf | auto]].
    + apply Z.ltb_ge in Eb.
      exists (frameToEvict sr0),
        [EvEvict (u64 (frameToEvict sr0)) (u64 (pageToEvict sr0));
         EvWrite (u64 (u64 (parentOfPageToEvict sr0 * PAGE_SIZE cfg
                            + getOffset cfg (pageToEvict sr0)))) 0;
         EvWrite (u64 addr) (i32 (frameToEvict sr0))].
      set (st1 := PMwrite addr (i32 (frameToEvict sr0)) _).
      pose proof (fill_calls level (frameToEvict sr0) q forb st1) as Hc.
      pose proof (fill_forbidden level (frameToEvict sr0) q forb st1) as Hf.
      pose proof (fill_zeroes level (frameToEvict sr0) q forb st1) as Hz.
      destruct (fill cfg level (frameToEvict sr0) q forb st1) as [forb' st'].
      cbn [fst snd] in *. split; [right; right; auto|].
      split; [rewrite Hc; subst st1; unfold PMwrite, PMevict; cbn [calls];
              rewrite i32_i32; rewrite <- !app_assoc; reflexivity|].
      destruct (level =? TABLES_DEPTH cfg - 1); [exact Hf | split; [exact Hf | auto]].
Qed.

Lemma is_read_keeps_root e : is_read e -> ~ changes_root cfg e.
Proof. destruct e; cbn; tauto. Qed.

Lemma reads_keep_root (P : event -> Prop) rs :
  Forall is_read rs -> Forall (fun e => changes_root cfg e -> P e) rs.
Proof.
  intros H. eapply Forall_impl; [exact H|]. intros e He Hc.
  exfalso. exact (is_read_keeps_root e He Hc).
Qed.

Lemma filling_keeps_root level frame q :
  u64 frame <> 0 ->
  Forall (fun e => changes_root cfg e -> zero_write e) (filling cfg level frame q).
Proof.
  intros Hne. unfold filling. destruct (level =? TABLES_DEPTH cfg - 1).
  - constructor; [|constructor]. cbn. intros H. contradiction.
  - unfold zeroing. apply Forall_map. apply Forall_forall. intros i _ _.
    eexists. reflexivity.
Qed.

(** The frame of a victim that the selector found is not frame 0. *)
Lemma found_victim_frame q L sr :
  victim sr = fold_left (better cfg q) L (-1, (0, 0, 0)) ->
  Forall (fun c => exists v, int_range v /\ v <> 0 /\ snd c = u64 v) L ->
  maxCyclicalDistance sr <> -1 ->
  exists v, int_range v /\ v <> 0 /\ frameToEvict sr = u64 v.
Proof.
  intros Hv HL Hd.
  destruct (first_farthest cfg q L (-1, (0, 0, 0))) as
    [[Hr _] | (before & after & Hsplit & _)].
  - rewrite <- Hv in Hr. unfold victim in Hr. congruence.
  - rewrite <- Hv in Hsplit. cbn [victim snd] in Hsplit.
    rewrite Hsplit in HL. apply Forall_app in HL as [_ HL].
    apply Forall_inv in HL. exact HL.
Qed.

(** What holds of frame 0 by design.  On the first allocation of a
    translation (the forbidden frame is still 0), and when an allocation
    that reaches the eviction case has a victim found by the selector, the
    chosen frame is never frame 0: frame 0 is not adopted as an empty
    table, is not the fresh frame and is not the victim's frame.  During
    such an allocation every backend call that changes a word of frame 0
    either installs the chosen frame in the faulting parent slot or
    writes a zero. *)
Theorem root_survives_first_allocation q off level cur addr st :
  let sel := selector cfg q off 0 cur addr st in
  let r := addFrame cfg q off level 0 cur addr st in
  (maxFrameIndex (fst sel) <> -1 ->
   NUM_FRAMES cfg <= maxFrameIndex (fst sel) + 1 ->
   maxCyclicalDistance (fst sel) <> -1) ->
  snd (fst r) <> 0
  /\ exists new,
       calls (snd r) = calls st ++ new
       /\ Forall (fun e => changes_root cfg e ->
                           e = EvWrite (u64 addr) (snd (fst r)) \/ zero_write e)
            new.
Proof.
  intros sel r Hfound.
  destruct (addFrame_cases q off level 0 cur addr st)
    as (chosen & strategy & Hcase & Hcalls & _).
  fold sel in Hcase, Hcalls. fold r in Hcase, Hcalls.
  pose proof (selector_spec cfg q off 0 cur addr st) as Hsel.
  cbv zeta in Hsel. fold sel in Hsel.
  destruct Hsel as [Hk | Ha].
  - (* nothing adopted: a fresh frame or an eviction *)
    destruct Hk as (Hm & _ & _ & (rs & Hrs & Hreads) & Hv & _).
    destruct Hcase as [(Hneg & _) | [(_ & Hlt & Hch & Hst & Hcur)
                                    | (Hne & Hge & Hch & Hst & Hcur)]].
    + lia.
    + assert (Hnz : snd (fst r) <> 0).
      { rewrite Hcur, Hch. apply i32_succ_nonzero. exact Hm. }
      split; [exact Hnz|].
      exists (rs ++ strategy ++ filling cfg level chosen q).
      split; [rewrite Hcalls, Hrs, <- app_assoc; reflexivity|].
      apply Forall_app. split; [apply reads_keep_root; exact Hreads|].
      apply Forall_app. split.
      { rewrite Hst, <- Hcur. constructor; [|constructor]. intros _. left. reflexivity. }
      eapply Forall_impl; [apply filling_keeps_root|].
      * rewrite Hch. rewrite u64_id; lia.
      * cbn beta. intros e He Hc. right. exact (He Hc).
    + destruct (found_victim_frame q _ _ Hv
                  (leaves_frames cfg _ _ _ _ _) (Hfound Hne Hge))
        as (v & Hvr & Hvz & Hfr).
      assert (Hnz : snd (fst r) <> 0).
      { rewrite Hcur, Hch, Hfr. rewrite i32_u64_int by exact Hvr. exact Hvz. }
      split; [exact Hnz|].
      exists (rs ++ strategy ++ filling cfg level chosen q).
      split; [rewrite Hcalls, Hrs, <- app_assoc; reflexivity|].
      apply Forall_app. split; [apply reads_keep_root; exact Hreads|].
      apply Forall_app. split.
      { rewrite Hst, <- Hcur. constructor; [cbn; tauto|].
        constructor; [intros _; right; eexists; reflexivity|].
        constructor; [|constructor]. intros _. left. reflexivity. }
      eapply Forall_impl; [apply filling_keeps_root|].
      * rewrite Hch, Hfr, u64_u64. apply u64_int_nonzero; assumption.
      * cbn beta. intros e He Hc. right. exact (He Hc).
  - (* an all-zero table was adopted *)
    destruct Ha as (Hm & _ & f & rs & detach & Hf & Hforb & Hz & Hcu & Hc & Hreads & Hdet).
    destruct Hcase as [(_ & Hch & Hst & Hcur) | [(Hne & _) | (Hne & _)]];
      [|contradiction|contradiction].
    assert (Hnz : snd (fst r) <> 0).
    { rewrite Hcur, Hcu. intros ->. apply Hforb. reflexivity. }
    split; [exact Hnz|].
    exists (rs ++ detach ++ [EvWrite (u64 addr) f] ++ filling cfg level chosen q).
    split.
    { rewrite Hcalls, Hc, Hst. cbn [app]. rewrite <- !app_assoc. reflexivity. }
    apply Forall_app. split; [apply reads_keep_root; exact Hreads|].
    apply Forall_app. split.
    { eapply Forall_impl; [exact Hdet|]. intros e He _. right. exact He. }
    apply Forall_app. split.
    { constructor; [|constructor]. intros _. left. rewrite Hcur, Hcu. reflexivity. }
    eapply Forall_impl; [apply filling_keeps_root|].
    * rewrite Hch, Hz, u64_u64. exact Hforb.
    * cbn beta. intros e He Hc'. right. exact (He Hc').
Qed.

Lemma NUM_PAGES_bound :
  0 <= VIRTUAL_ADDRESS_WIDTH cfg - OFFSET_WIDTH cfg <= 31 ->
  0 < NUM_PAGES cfg <= 2 ^ 31.
Proof.
  intros H. unfold NUM_PAGES. split.
  - apply Z.pow_pos_nonneg; lia.
  - apply Z.pow_le_mono_r; lia.
Qed.

(** On page numbers below NUM_PAGES the distance that [findFrame]
    compares is the cyclic distance of the specification. *)
Lemma findCyclicDistance_spec q p :
  0 <= VIRTUAL_ADDRESS_WIDTH cfg - OFFSET_WIDTH cfg <= 31 ->
  0 <= q < NUM_PAGES cfg -> 0 <= p < NUM_PAGES cfg ->
  i32 (findCyclicDistance cfg q p) = cyclic_distance cfg q p.
Proof.
  intros Hw Hq Hp. pose proof (NUM_PAGES_bound Hw) as HN.
  unfold findCyclicDistance, cyclic_distance.
  set (N := NUM_PAGES cfg) in *.
  rewrite i64_u64_int by lia.
  assert (Hfirst : (if q - p <? 0 then i64 (- (q - p)) else q - p) = Z.abs (q - p)).
  { destruct (q - p <? 0) eqn:E.
    - apply Z.ltb_lt in E. rewrite i64_id by lia. lia.
    - apply Z.ltb_ge in E. lia. }
  rewrite Hfirst. set (d := Z.abs (q - p)) in *.
  assert (Hd : 0 <= d < N) by (subst d; lia).
  rewrite (i64_id (N - d)) by lia.
  destruct (N - d <? d) eqn:E.
  - apply Z.ltb_lt in E. rewrite u64_id, i32_id by lia. lia.
  - apply Z.ltb_ge in E. rewrite u64_id, i32_id by lia. lia.
Qed.

Lemma cyclic_distance_nonneg q p :
  0 <= VIRTUAL_ADDRESS_WIDTH cfg - OFFSET_WIDTH cfg <= 31 ->
  0 <= q < NUM_PAGES cfg -> 0 <= p < NUM_PAGES cfg ->
  0 <= cyclic_distance cfg q p.
Proof. intros Hw Hq Hp. unfold cyclic_distance. lia. Qed.

(** X17.  With page numbers of at most 31 bits (so that every distance
    fits an int): whenever an allocation takes the eviction case (no
    empty table reclaimed and [maxFrameIndex + 1 >= NUM_FRAMES]) and the
    tree holds at least one resident page, the page evicted for the
    faulting page [q] is a resident page that maximizes the cyclic distance
    to [q] over all resident pages, and among equally distant candidates it
    is the one that the depth-first walk in ascending slot order reaches
    first: every candidate before it is strictly nearer, every candidate
    after it is at most as far. *)
Theorem farthest_resident_page_evicted q off level forb cur addr st :
  let sel := selector cfg q off forb cur addr st in
  let sr := fst sel in
  let r := addFrame cfg q off level forb cur addr st in
  0 <= VIRTUAL_ADDRESS_WIDTH cfg - OFFSET_WIDTH cfg <= 31 ->
  0 <= q < NUM_PAGES cfg ->
  Forall (fun c => 0 <= fst (fst c) < NUM_PAGES cfg) (resident_leaves cfg (ram st)) ->
  resident_leaves cfg (ram st) <> [] ->
  maxFrameIndex sr <> -1 ->
  NUM_FRAMES cfg <= maxFrameIndex sr + 1 ->
  exists before after rest,
    resident_leaves cfg (ram st)
    = before ++ (pageToEvict sr, parentOfPageToEvict sr, frameToEvict sr) :: after
    /\ Forall (fun c => cyclic_distance cfg q (fst (fst c))
                        < cyclic_distance cfg q (pageToEvict sr)) before
    /\ Forall (fun c => cyclic_distance cfg q (fst (fst c))
                        <= cyclic_distance cfg q (pageToEvict sr)) after
    /\ calls (snd r)
       = calls (snd sel) ++ EvEvict (frameToEvict sr) (pageToEvict sr) :: rest.
Proof.
  intros sel sr r Hw Hq Hpages Hsome Hne Hge.
  pose proof (selector_spec cfg q off forb cur addr st) as Hsel.
  cbv zeta in Hsel. fold sel in Hsel. fold sr in Hsel.
  destruct Hsel as [Hk | Ha]; [|destruct Ha as [Ha _]; contradiction].
  destruct Hk as (_ & _ & _ & _ & Hv & _).
  set (L := resident_leaves cfg (ram st)) in *.
  change (victim (initial_search cur)) with (-1, (0, 0, 0)) in Hv.
  destruct (first_farthest cfg q L (-1, (0, 0, 0)))
    as [[_ Hall] | (before & after & Hsplit & _ & _ & Hbef & Haft)].
  - (* some candidate is at a distance of at least 0 *)
    exfalso. destruct L as [|c L']; [contradiction|].
    apply Forall_inv in Hall. apply Forall_inv in Hpages.
    rewrite findCyclicDistance_spec in Hall by assumption.
    pose proof (cyclic_distance_nonneg q (fst (fst c)) Hw Hq Hpages).
    cbn [fst] in Hall. lia.
  - rewrite <- Hv in Hsplit, Hbef, Haft. cbn [victim snd fst] in Hsplit, Hbef, Haft.
    assert (Hvictim : 0 <= pageToEvict sr < NUM_PAGES cfg).
    { rewrite Hsplit in Hpages. apply Forall_app in Hpages as [_ Hp].
      apply Forall_inv in Hp. exact Hp. }
    destruct (addFrame_cases q off level forb cur addr st)
      as (chosen & strategy & Hcase & Hcalls & _).
    fold sel in Hcase, Hcalls. fold sr in Hcase. fold r in Hcase, Hcalls.
    destruct Hcase as [(Hneg & _) | [(_ & Hlt & _) | (_ & _ & Hch & Hst & _)]];
      [contradiction | lia |].
    assert (Hframe : u64 (frameToEvict sr) = frameToEvict sr).
    { pose proof (leaves_frames cfg (Z.to_nat (TABLES_DEPTH cfg)) (ram st) 0 0 0) as HF.
      fold (resident_leaves cfg (ram st)) in HF. fold L in HF.
      rewrite Hsplit in HF. apply Forall_app in HF as [_ HF].
      apply Forall_inv in HF. destruct HF as (v & _ & _ & Hfr).
      cbn [snd] in Hfr. rewrite Hfr. apply u64_u64. }
    exists before, after. eexists. split; [exact Hsplit|].
    assert (Hpb : Forall (fun c => 0 <= fst (fst c) < NUM_PAGES cfg) before).
    { rewrite Hsplit in Hpages. apply Forall_app in Hpages as [Hp _]. exact Hp. }
    assert (Hpa : Forall (fun c => 0 <= fst (fst c) < NUM_PAGES cfg) after).
    { rewrite Hsplit in Hpages. apply Forall_app in Hpages as [_ Hp].
      apply Forall_inv_tail in Hp. exact Hp. }
    split; [|split].
    + apply Forall_forall. intros c Hin.
      pose proof (proj1 (Forall_forall _ _) Hbef c Hin) as H1.
      pose proof (proj1 (Forall_forall _ _) Hpb c Hin) as H2.
      cbn beta in H1. rewrite !findCyclicDistance_spec in H1 by assumption. exact H1.
    + apply Forall_forall. intros c Hin.
      pose proof (proj1 (Forall_forall _ _) Haft c Hin) as H1.
      pose proof (proj1 (Forall_forall _ _) Hpa c Hin) as H2.
      cbn beta in H1. rewrite !findCyclicDistance_spec in H1 by assumption. exact H1.
    + rewrite Hcalls, Hst. cbn [app].
      rewrite Hframe. rewrite (u64_id (pageToEvict sr)); [reflexivity|].
      pose proof (NUM_PAGES_bound Hw). lia.
Qed.

(** C3.  Every call of the allocator runs exactly one of three
    strategies, tried in this order: (A) the selector adopted an
    all-zero table, and that frame is reused; (B) otherwise, when
    [maxFrameIndex + 1 < NUM_FRAMES], the fresh frame [maxFrameIndex + 1]
    is written into the parent slot; (C) otherwise the victim is evicted,
    its parent slot is zeroed and its frame is written into the parent
    slot.  In each case the allocation ends, at the last level of
    tables, with the restore of the faulting page into the chosen frame
    and, at any other level, with the zeroing of the PAGE_SIZE words of
    the chosen frame, which becomes the forbidden frame. *)
Theorem allocator_strategies q off level forb cur addr st :
  let sel := selector cfg q off forb cur addr st in
  let sr := fst sel in
  let r := addFrame cfg q off level forb cur addr st in
  exists chosen strategy,
    ((maxFrameIndex sr = -1
      /\ chosen = zeroFrameIndex sr /\ strategy = []
      /\ snd (fst r) = currentFrameIndex sr)
     \/ (maxFrameIndex sr <> -1 /\ maxFrameIndex sr + 1 < NUM_FRAMES cfg
         /\ chosen = maxFrameIndex sr + 1
         /\ strategy = [EvWrite (u64 addr) (i32 chosen)]
         /\ snd (fst r) = i32 chosen)
     \/ (maxFrameIndex sr <> -1 /\ NUM_FRAMES cfg <= maxFrameIndex sr + 1
         /\ chosen = frameToEvict sr
         /\ strategy =
              [EvEvict (u64 (frameToEvict sr)) (u64 (pageToEvict sr));
               EvWrite (u64 (u64 (parentOfPageToEvict sr * PAGE_SIZE cfg
                                  + getOffset cfg (pageToEvict sr)))) 0;
               EvWrite (u64 addr) (i32 chosen)]
         /\ snd (fst r) = i32 chosen))
    /\ calls (snd r) = calls (snd sel) ++ strategy ++ filling cfg level chosen q
    /\ (if level =? TABLES_DEPTH cfg - 1
        then fst (fst r) = forb
        else fst (fst r) = u64 chosen
             /\ Forall (fun i => word_at (ram (snd r))
                                   (u64 (u64 (chosen * PAGE_SIZE cfg) + i)) = 0)
                  (slots cfg)).
Proof. apply addFrame_cases. Qed.

End Allocator.


(** ** The public entry points *)

Section PublicAPI.

Variable cfg : Config.

(** C4.  For a virtual address at or beyond VIRTUAL_MEMORY_SIZE both
    [VMread] and [VMwrite] return 0 and leave the backend as it was: no
    backend call is made (the record of calls is the same) and neither the
    physical memory nor the backing store changes; the cell behind the
    pointer of [VMread] keeps its value.  [VMread] with a null pointer does
    the same at any address. *)
Theorem invalid_request_rejected v w value st :
  VIRTUAL_MEMORY_SIZE cfg <= v ->
  VMwrite cfg v w st = (0, st)
  /\ VMread cfg v value st = (0, value, st)
  /\ forall v', VMread cfg v' None st = (0, None, st).
Proof.
  intros Hv. apply Z.leb_le in Hv.
  unfold VMwrite, VMread. rewrite Hv.
  split; [reflexivity|]. split; [destruct value; reflexivity|].
  intros v'. reflexivity.
Qed.

End PublicAPI.

(** ** Scenarios *)

(** The scenarios are closed: they are settled by evaluating the
    definitions. *)
Ltac evaluate := vm_compute; repeat split; try reflexivity; try discriminate.

Section Scenarios.

(** [invalid_request_rejected] at address 8 = VIRTUAL_MEMORY_SIZE of the
    two-level configuration. *)

Lemma invalid_request_rejected_witness :
  VIRTUAL_MEMORY_SIZE cfg_two_levels <= 8
  /\ (VMwrite cfg_two_levels 8 7 (boot cfg_two_levels) = (0, boot cfg_two_levels)
      /\ VMread cfg_two_levels 8 (Some 99) (boot cfg_two_levels)
         = (0, Some 99, boot cfg_two_levels)
      /\ forall v', VMread cfg_two_levels v' None (boot cfg_two_levels)
                    = (0, None, boot cfg_two_levels)).
Proof.
  assert (H : VIRTUAL_MEMORY_SIZE cfg_two_levels <= 8) by (vm_compute; discriminate).
  split; [exact H|].
  exact (invalid_request_rejected cfg_two_levels 8 7 (Some 99) (boot cfg_two_levels) H).
Defined.

(** [root_survives_first_allocation] at an allocation that evicts: pages 0
    and 1 are resident, every frame is in use, and page 2 faults at
    level 0; the victim is page 0 in frame 2. *)
Lemma root_survives_first_allocation_witness :
  (maxFrameIndex (fst (selector cfg_two_levels 2 1 0 0 1 two_pages_resident)) <> -1 ->
   NUM_FRAMES cfg_two_levels
   <= maxFrameIndex (fst (selector cfg_two_levels 2 1 0 0 1 two_pages_resident)) + 1 ->
   maxCyclicalDistance (fst (selector cfg_two_levels 2 1 0 0 1 two_pages_resident)) <> -1)
  /\ (snd (fst (addFrame cfg_two_levels 2 1 0 0 0 1 two_pages_resident)) <> 0
      /\ exists new,
           calls (snd (addFrame cfg_two_levels 2 1 0 0 0 1 two_pages_resident))
           = calls two_pages_resident ++ new
           /\ Forall (fun e =>
                        changes_root cfg_two_levels e ->
                        e = EvWrite (u64 1)
                              (snd (fst (addFrame cfg_two_levels 2 1 0 0 0 1
                                           two_pages_resident)))
                        \/ zero_write e) new).
Proof.
  assert (H : maxFrameIndex (fst (selector cfg_two_levels 2 1 0 0 1 two_pages_resident)) <> -1 ->
              NUM_FRAMES cfg_two_levels
              <= maxFrameIndex (fst (selector cfg_two_levels 2 1 0 0 1 two_pages_resident)) + 1 ->
              maxCyclicalDistance (fst (selector cfg_two_levels 2 1 0 0 1 two_pages_resident)) <> -1).
  { intros _ _. vm_compute. discriminate. }
  split; [exact H|].
  exact (root_survives_first_allocation cfg_two_levels 2 1 0 0 1 two_pages_resident H).
Defined.

(** [farthest_resident_page_evicted] at the same allocation: of the
    resident pages 0 and 1, page 0 is at distance 2 from page 2 and page 1
    at distance 1. *)
Lemma farthest_resident_page_evicted_witness :
  (0 <= VIRTUAL_ADDRESS_WIDTH cfg_two_levels - OFFSET_WIDTH cfg_two_levels <= 31
   /\ 0 <= 2 < NUM_PAGES cfg_two_levels
   /\ Forall (fun c => 0 <= fst (fst c) < NUM_PAGES cfg_two_levels)
        (resident_leaves cfg_two_levels (ram two_pages_resident))
   /\ resident_leaves cfg_two_levels (ram two_pages_resident) <> []
   /\ maxFrameIndex (fst (selector cfg_two_levels 2 1 0 0 1 two_pages_resident)) <> -1
   /\ NUM_FRAMES cfg_two_levels
      <= maxFrameIndex (fst (selector cfg_two_levels 2 1 0 0 1 two_pages_resident)) + 1)
  /\ exists before after rest,
       resident_leaves cfg_two_levels (ram two_pages_resident)
       = before
         ++ (pageToEvict (fst (selector cfg_two_levels 2 1 0 0 1 two_pages_resident)),
             parentOfPageToEvict (fst (selector cfg_two_levels 2 1 0 0 1 two_pages_resident)),
             frameToEvict (fst (selector cfg_two_levels 2 1 0 0 1 two_pages_resident)))
         :: after
       /\ Forall (fun c =>
                    cyclic_distance cfg_two_levels 2 (fst (fst c))
                    < cyclic_distance cfg_two_levels 2
                        (pageToEvict (fst (selector cfg_two_levels 2 1 0 0 1
                                             two_pages_resident)))) before
       /\ Forall (fun c =>
                    cyclic_distance cfg_two_levels 2 (fst (fst c))
                    <= cyclic_distance cfg_two_levels 2
                         (pageToEvict (fst (selector cfg_two_levels 2 1 0 0 1
                                              two_pages_resident)))) after
       /\ calls (snd (addFrame cfg_two_levels 2 1 0 0 0 1 two_pages_resident))
          = calls (snd (selector cfg_two_levels 2 1 0 0 1 two_pages_resident))
            ++ EvEvict
                 (frameToEvict (fst (selector cfg_two_levels 2 1 0 0 1 two_pages_resident)))
                 (pageToEvict (fst (selector cfg_two_levels 2 1 0 0 1 two_pages_resident)))
               :: rest.
Proof.
  assert (H1 : 0 <= VIRTUAL_ADDRESS_WIDTH cfg_two_levels - OFFSET_WIDTH cfg_two_levels <= 31)
    by (vm_compute; split; discriminate).
  assert (H2 : 0 <= 2 < NUM_PAGES cfg_two_levels)
    by (vm_compute; split; [discriminate | reflexivity]).
  assert (H3 : Forall (fun c => 0 <= fst (fst c) < NUM_PAGES cfg_two_levels)
                 (resident_leaves cfg_two_levels (ram two_pages_resident))).
  { replace (resident_leaves cfg_two_levels (ram two_pages_resident))
      with [(0, 1, 2); (1, 1, 3)] by (vm_compute; reflexivity).
    change (NUM_PAGES cfg_two_levels) with 4.
    repeat constructor; cbn [fst]; lia. }
  assert (H4 : resident_leaves cfg_two_levels (ram two_pages_resident) <> [])
    by (vm_compute; discriminate).
  assert (H5 : maxFrameIndex (fst (selector cfg_two_levels 2 1 0 0 1 two_pages_resident)) <> -1)
    by (vm_compute; discriminate).
  assert (H6 : NUM_FRAMES cfg_two_levels
               <= maxFrameIndex (fst (selector cfg_two_levels 2 1 0 0 1 two_pages_resident)) + 1)
    by (vm_compute; discriminate).
  split; [exact (conj H1 (conj H2 (conj H3 (conj H4 (conj H5 H6)))))|].
  exact (farthest_resident_page_evicted cfg_two_levels 2 1 0 0 0 1 two_pages_resident
           H1 H2 H3 H4 H5 H6).
Defined.

(** C2.  With TABLES_DEPTH = 4 and NUM_FRAMES = 8: the translation of
    address 0 that follows reads of pages 0, 8, 0, 9 and 0 ends with the
    allocation of level 3, which takes the eviction case while no page is
    resident; the allocator calls PMevict(0, 0), and "page 0 in frame 0"
    is no resident page, so it is not the farthest resident page. *)
Theorem eviction_without_resident_page :
  walk cfg_four_levels 4 0 0 (0, 0, leaked_frames)
  = (0, 5, snd (addFrame cfg_four_levels 0 0 3 5 0 10 leaked_frames_at_level_3))
  /\ maxFrameIndex (fst (selector cfg_four_levels 0 0 5 0 10 leaked_frames_at_level_3)) <> -1
  /\ NUM_FRAMES cfg_four_levels
     <= maxFrameIndex (fst (selector cfg_four_levels 0 0 5 0 10 leaked_frames_at_level_3)) + 1
  /\ In (EvEvict 0 0)
       (calls_after (length (calls leaked_frames_at_level_3))
          (snd (addFrame cfg_four_levels 0 0 3 5 0 10 leaked_frames_at_level_3)))
  /\ ~ (exists parent frame,
          In (0, parent, frame)
            (resident_leaves cfg_four_levels (ram leaked_frames_at_level_3))).
Proof.
  split; [vm_compute; reflexivity|].
  split; [vm_compute; discriminate|].
  split; [vm_compute; discriminate|].
  split; [vm_compute; tauto|].
  intros (parent & frame & Hin).
  assert (E : resident_leaves cfg_four_levels (ram leaked_frames_at_level_3) = [])
    by (vm_compute; reflexivity).
  rewrite E in Hin. exact Hin.
Qed.

(** The contents of frame 0 also change when a child of the root is
    re-bound: with TABLES_DEPTH = 2, after writes to pages 0 and 2 the read
    of page 3 reclaims the all-zero table in frame 1 and detaches it from
    the root: word 0 of frame 0 changes from 1 to 0 by a write that
    installs nothing (the request installs at address 7). *)
Lemma root_changed_by_detach :
  word_at (ram table_emptied) 0 = 1
  /\ word_at (ram (serve cfg_two_levels table_emptied (Read 6))) 0 = 0
  /\ calls_after (length (calls table_emptied))
       (serve cfg_two_levels table_emptied (Read 6))
     = [EvRead 1; EvRead 7; EvRead 0; EvRead 2; EvRead 3;
        EvWrite 0 0; EvWrite 7 1; EvRestore 1 3; EvRead 2].
Proof. evaluate. Qed.

(** With page numbers of 32 bits the farthest page is passed over:
    pages 2^31, 2^31 + 1, 2^31 + 2 and 2^31 + 3 are resident, every frame
    is in use, and page 0 faults at level 0.  The distance from page 0 to
    page 2^31 is 2^31, which the cast to int of line 87 turns into -2^31:
    the page is never a candidate, and the allocator evicts page 2^31 + 1,
    which is nearer and comes later in the walk. *)
Lemma farther_page_passed_over :
  (TABLES_DEPTH cfg_wide_pages, PAGE_SIZE cfg_wide_pages,
   NUM_FRAMES cfg_wide_pages, NUM_PAGES cfg_wide_pages) = (4, 256, 8, 2 ^ 32)
  /\ resident_leaves cfg_wide_pages (ram far_pages_resident)
     = [(2 ^ 31, 3, 4); (2 ^ 31 + 1, 3, 5); (2 ^ 31 + 2, 3, 6); (2 ^ 31 + 3, 3, 7)]
  /\ fst (PMread 0 far_pages_resident) = 0
  /\ maxFrameIndex (fst (selector cfg_wide_pages 0 0 0 0 0 far_pages_at_level_0)) = 7
  /\ victim (fst (selector cfg_wide_pages 0 0 0 0 0 far_pages_at_level_0))
     = (2 ^ 31 - 1, (2 ^ 31 + 1, 3, 5))
  /\ List.filter is_evict
       (calls_after (length (calls far_pages_at_level_0))
          (snd (addFrame cfg_wide_pages 0 0 0 0 0 0 far_pages_at_level_0)))
     = [EvEvict 5 (2 ^ 31 + 1)]
  /\ cyclic_distance cfg_wide_pages 0 (2 ^ 31 + 1)
     < cyclic_distance cfg_wide_pages 0 (2 ^ 31)
  /\ findCyclicDistance cfg_wide_pages 0 (2 ^ 31) = 2 ^ 31
  /\ i32 (findCyclicDistance cfg_wide_pages 0 (2 ^ 31)) = - 2 ^ 31.
Proof. evaluate. Qed.

(** C7.  With TABLES_DEPTH = 4 and NUM_FRAMES = 8 (so NUM_FRAMES >
    TABLES_DEPTH): after initialisation and reads of pages 0, 8, 0, 9 and
    0, the next [VMread(0, &value)] takes frame 0 as the eviction victim.
    Its last allocation calls PMevict(0, 0), writes 0 to address 0 (slot 0
    of the root, which held the table in frame 7; nothing is installed
    there), writes the frame index 0 into the faulting parent slot at
    address 10 and restores the page into frame 0.  The translation
    returns the physical address 0: the read hands out slot 0 of the root
    (7, a table reference) as the word of page 0, and a [VMwrite(0, 77)]
    in its place stores 77 into slot 0 of the root. *)
Theorem root_frame_evicted :
  TABLES_DEPTH cfg_four_levels < NUM_FRAMES cfg_four_levels
  /\ calls_after (length (calls leaked_frames))
       (serve cfg_four_levels leaked_frames (Read 0))
     = [EvRead 0;
        EvRead 0; EvRead 1; EvRead 10; EvRead 12; EvRead 14; EvRead 15;
        EvWrite 12 0; EvWrite 0 7; EvWrite 14 0; EvWrite 15 0;
        EvRead 14;
        EvRead 0; EvRead 14; EvRead 15; EvRead 1; EvRead 10; EvRead 12; EvRead 13;
        EvWrite 10 0; EvWrite 14 6; EvWrite 12 0; EvWrite 13 0;
        EvRead 12;
        EvRead 0; EvRead 14; EvRead 12; EvRead 13; EvRead 15; EvRead 1;
        EvRead 10; EvRead 11;
        EvWrite 1 0; EvWrite 12 5; EvWrite 10 0; EvWrite 11 0;
        EvRead 10;
        EvRead 0; EvRead 14; EvRead 12; EvRead 10; EvRead 11; EvRead 13;
        EvRead 15; EvRead 1;
        EvEvict 0 0; EvWrite 0 0; EvWrite 10 0; EvRestore 0 0;
        EvRead 0]
  /\ fst (translateVirtualAddress cfg_four_levels 0 leaked_frames) = 0
  /\ fst (VMread cfg_four_levels 0 (Some 99) leaked_frames) = (1, Some 7)
  /\ fst (VMwrite cfg_four_levels 0 77 leaked_frames) = 1
  /\ dump cfg_four_levels (snd (VMwrite cfg_four_levels 0 77 leaked_frames))
     = [77; 0;  4; 0;  0; 0;  0; 0;  2; 0;  0; 0;  5; 0;  6; 0].
Proof. evaluate. Qed.

(** C1.  With TABLES_DEPTH = 2 and NUM_FRAMES = 4: after writes to pages 0
    and 2, [VMwrite(2, 7)] succeeds and the [VMread(2, &value)] that
    follows it succeeds too, but stores 0, not 7.  The write adopted the
    table on its own path (frame 1) as the empty table, which detached it
    from the root; the read then misses and restores a page that was never
    saved. *)
Theorem written_word_lost :
  TABLES_DEPTH cfg_two_levels < NUM_FRAMES cfg_two_levels
  /\ 2 < VIRTUAL_MEMORY_SIZE cfg_two_levels
  /\ fst (VMwrite cfg_two_levels 2 7 table_emptied) = 1
  /\ fst (VMread cfg_two_levels 2 (Some 99)
            (snd (VMwrite cfg_two_levels 2 7 table_emptied))) = (1, Some 0)
  /\ calls_after (length (calls table_emptied))
       (snd (VMwrite cfg_two_levels 2 7 table_emptied))
     = [EvRead 0; EvRead 3; EvRead 0; EvRead 2; EvRead 3;
        EvWrite 0 0; EvWrite 3 1; EvRestore 1 1; EvWrite 2 7].
Proof. evaluate. Qed.

(** C5.  With TABLES_DEPTH = 4 and NUM_FRAMES = 8: after reads of pages 0,
    8, 0, 9 and 0, [VMwrite(1, 5)] succeeds and leaves two parent slots of
    the tree, at addresses 12 and 1, that reference frame 5.  The
    translation took the eviction case with no victim, restored the page
    into frame 0, and the written word landed in slot 1 of the root. *)
Theorem frame_referenced_twice :
  TABLES_DEPTH cfg_four_levels < NUM_FRAMES cfg_four_levels
  /\ fst (VMwrite cfg_four_levels 1 5 leaked_frames) = 1
  /\ tree_slots cfg_four_levels (ram (snd (VMwrite cfg_four_levels 1 5 leaked_frames)))
     = [(0, 7); (14, 6); (12, 5); (1, 5)].
Proof. evaluate. Qed.

(** C6.  With TABLES_DEPTH = 4 and NUM_FRAMES = 8: in the translation of
    address 8 that follows reads of pages 0, 2, 4 and 0, the allocation of
    level 2 adopts frame 7 (the all-zero table on the path of the walk
    itself), detaches it, zeroes it and makes it the forbidden frame; the
    allocation of level 3 then finds [maxFrameIndex = 6] and chooses the
    fresh frame 7 again, for the page. *)
Theorem committed_frame_chosen_again :
  TABLES_DEPTH cfg_four_levels < NUM_FRAMES cfg_four_levels
  /\ fst stale_table_walked = (7, 7)
  /\ calls_after (length (calls stale_table)) (snd stale_table_walked)
     = [EvRead 0; EvRead 3; EvRead 14;
        EvRead 0; EvRead 2; EvRead 4; EvRead 6; EvRead 7; EvRead 5;
        EvRead 10; EvRead 11; EvRead 3; EvRead 14; EvRead 15;
        EvWrite 3 0; EvWrite 14 7; EvWrite 14 0; EvWrite 15 0]
  /\ fst (PMread 14 (snd stale_table_walked)) = 0
  /\ maxFrameIndex (fst (selector cfg_four_levels 4 0 7 0 14 stale_table_at_level_3)) = 6
  /\ fst (addFrame cfg_four_levels 4 0 3 7 0 14 stale_table_at_level_3) = (7, 7)
  /\ calls_after (length (calls stale_table_at_level_3))
       (snd (addFrame cfg_four_levels 4 0 3 7 0 14 stale_table_at_level_3))
     = [EvRead 0; EvRead 2; EvRead 4; EvRead 6; EvRead 7; EvRead 5;
        EvRead 10; EvRead 11; EvRead 3; EvRead 1;
        EvWrite 14 7; EvRestore 7 4]
  /\ walk cfg_four_levels 4 8 0 (0, 0, stale_table)
     = (7, 7, snd (addFrame cfg_four_levels 4 0 3 7 0 14 stale_table_at_level_3)).
Proof. evaluate. Qed.

(** C8.  With TABLES_DEPTH = 4 and NUM_FRAMES = 8 (so NUM_FRAMES >
    TABLES_DEPTH): in the translation of address 0 that follows reads of
    pages 0, 8, 0, 9 and 0, the allocation of level 3 reaches the eviction
    case ([maxFrameIndex = 7], nothing adopted) although the selector found
    no resident page: the best distance is still -1, the victim triple is
    the initial (0, 0, 0), and the allocator evicts frame 0 as page 0,
    zeroes slot 0 of the root and restores the faulting page into
    frame 0. *)
Theorem eviction_with_no_victim :
  TABLES_DEPTH cfg_four_levels < NUM_FRAMES cfg_four_levels
  /\ fst leaked_frames_walked = (5, 5)
  /\ fst (PMread 10 (snd leaked_frames_walked)) = 0
  /\ fst (selector cfg_four_levels 0 0 5 0 10 leaked_frames_at_level_3)
     = mkSearch 7 (-1) 0 0 0 0 (u64 (-1))
  /\ NUM_FRAMES cfg_four_levels <= 7 + 1
  /\ resident_leaves cfg_four_levels (ram leaked_frames_at_level_3) = []
  /\ calls_after (length (calls leaked_frames_at_level_3))
       (snd (addFrame cfg_four_levels 0 0 3 5 0 10 leaked_frames_at_level_3))
     = [EvRead 0; EvRead 14; EvRead 12; EvRead 10; EvRead 11;
        EvRead 13; EvRead 15; EvRead 1;
        EvEvict 0 0; EvWrite 0 0; EvWrite 10 0; EvRestore 0 0]
  /\ walk cfg_four_levels 4 0 0 (0, 0, leaked_frames)
     = (0, 5, snd (addFrame cfg_four_levels 0 0 3 5 0 10 leaked_frames_at_level_3)).
Proof. evaluate. Qed.

(** C9, as stated, fails: under OFFSET_WIDTH = 1, VIRTUAL_ADDRESS_WIDTH = 5,
    PHYSICAL_ADDRESS_WIDTH = 3, after a fresh initialize and write(13, 3)
    the words at 2*1+0, 2*2+1 and 2*3+1 are 0, 3 and 0, and read(13)
    stores 0. *)
Lemma scenario_S1_four_frames :
  ~ (word_at (ram (serve cfg_spec (boot cfg_spec) (Write 13 3))) (2 * 1 + 0) = 1
     /\ word_at (ram (serve cfg_spec (boot cfg_spec) (Write 13 3))) (2 * 2 + 1) = 2
     /\ word_at (ram (serve cfg_spec (boot cfg_spec) (Write 13 3))) (2 * 3 + 1) = 3
     /\ read_word cfg_spec 13 (serve cfg_spec (boot cfg_spec) (Write 13 3)) = Some 3).
Proof. vm_compute. intros (H & _). discriminate H. Qed.

(** C9, as amended.  Under OFFSET_WIDTH = 1, VIRTUAL_ADDRESS_WIDTH = 5,
    PHYSICAL_ADDRESS_WIDTH = 4 (TABLES_DEPTH = 4, PAGE_SIZE = 2,
    NUM_FRAMES = 8, NUM_PAGES = 16): after a fresh initialize, write(13, 3)
    walks slots (0, 1, 1, 0) with page offset 1, makes frames 1, 2 and 3
    the tables of levels 1, 2 and 3 and frame 4 the page, leaves
    memory[2*0+0] = 1, memory[2*1+1] = 2, memory[2*2+1] = 3,
    memory[2*3+0] = 4 and memory[2*4+1] = 3, and a subsequent read(13)
    returns 3. *)
Theorem scenario_S1_eight_frames :
  (TABLES_DEPTH cfg_four_levels, PAGE_SIZE cfg_four_levels,
   NUM_FRAMES cfg_four_levels, NUM_PAGES cfg_four_levels) = (4, 2, 8, 16)
  /\ map (level_offset cfg_four_levels 13) [0; 1; 2; 3] = [0; 1; 1; 0]
  /\ getOffset cfg_four_levels 13 = 1
  /\ dump cfg_four_levels (serve cfg_four_levels (boot cfg_four_levels) (Write 13 3))
     = [1; 0;  0; 2;  0; 3;  4; 0;  0; 3;  0; 0;  0; 0;  0; 0]
  /\ calls_after 2 (serve cfg_four_levels (boot cfg_four_levels) (Write 13 3))
     = [EvRead 0; EvRead 0; EvRead 1;
        EvWrite 0 1; EvWrite 2 0; EvWrite 3 0;
        EvRead 3; EvRead 0; EvRead 2; EvRead 3; EvRead 1;
        EvWrite 3 2; EvWrite 4 0; EvWrite 5 0;
        EvRead 5; EvRead 0; EvRead 2; EvRead 3; EvRead 4; EvRead 5; EvRead 1;
        EvWrite 5 3; EvWrite 6 0; EvWrite 7 0;
        EvRead 6; EvRead 0; EvRead 2; EvRead 3; EvRead 4; EvRead 5;
        EvRead 6; EvRead 7; EvRead 1;
        EvWrite 6 4; EvRestore 4 6;
        EvWrite 9 3]
  /\ fst (VMread cfg_four_levels 13 (Some 0)
            (serve cfg_four_levels (boot cfg_four_levels) (Write 13 3)))
     = (1, Some 3)
  /\ calls_after
       (length (calls (serve cfg_four_levels (boot cfg_four_levels) (Write 13 3))))
       (serve cfg_four_levels
          (serve cfg_four_levels (boot cfg_four_levels) (Write 13 3)) (Read 13))
     = [EvRead 0; EvRead 3; EvRead 5; EvRead 6; EvRead 9].
Proof. evaluate. Qed.

(** C10.  With TABLES_DEPTH = 4 and NUM_FRAMES = 8 (physical words 0 to
    15): after reads of pages 0, 8, 0, 9 and 0, [VMwrite(0, 1000)] puts
    1000 into slot 0 of frame 0 (the eviction with no victim restored the
    page into frame 0), and the [VMread(0, &value)] that follows takes 1000
    for a frame index: it reads the words at 2000 and 2001, installs the
    frame index 1000 at address 2000 and zeroes 2000 and 2001. *)
Theorem word_address_out_of_bounds :
  TABLES_DEPTH cfg_four_levels < NUM_FRAMES cfg_four_levels
  /\ NUM_FRAMES cfg_four_levels * PAGE_SIZE cfg_four_levels = 16
  /\ fst (VMwrite cfg_four_levels 0 1000 leaked_frames) = 1
  /\ calls_after
       (length (calls (snd (VMwrite cfg_four_levels 0 1000 leaked_frames))))
       (serve cfg_four_levels (snd (VMwrite cfg_four_levels 0 1000 leaked_frames))
          (Read 0))
     = [EvRead 0; EvRead 2000;
        EvRead 0; EvRead 2000; EvRead 2001;
        EvWrite 0 0; EvWrite 2000 1000; EvWrite 2000 0; EvWrite 2001 0;
        EvRead 2000; EvRead 0; EvRead 1;
        EvWrite 2000 0; EvWrite 0 0; EvWrite 1 0;
        EvRead 0; EvRead 0; EvRead 1;
        EvWrite 0 1; EvRestore 1 0;
        EvRead 2].
Proof. evaluate. Qed.

End Scenarios.


(** * Further properties of the code *)

(** ** Address arithmetic: [getOffset], [concatenatePath],
    [findCyclicDistance] and the slot indices of the walk *)

Section AddressArithmetic.

Variable cfg : Config.

Lemma mask_ones :
  0 <= OFFSET_WIDTH cfg <= 63 ->
  u64 (Z.shiftl 1 (OFFSET_WIDTH cfg) - 1) = Z.ones (OFFSET_WIDTH cfg).
Proof.
  intros H. rewrite Z.shiftl_1_l, Z.ones_equiv, <- Z.sub_1_r.
  apply u64_id.
  assert (0 < 2 ^ OFFSET_WIDTH cfg) by (apply Z.pow_pos_nonneg; lia).
  assert (2 ^ OFFSET_WIDTH cfg <= 2 ^ 63) by (apply Z.pow_le_mono_r; lia).
  lia.
Qed.

Lemma PAGE_SIZE_pos : 0 <= OFFSET_WIDTH cfg -> 0 < PAGE_SIZE cfg.
Proof. intros H. unfold PAGE_SIZE. apply Z.pow_pos_nonneg; lia. Qed.

Lemma getOffset_mod v :
  0 <= OFFSET_WIDTH cfg <= 63 -> getOffset cfg v = v mod PAGE_SIZE cfg.
Proof.
  intros H. unfold getOffset. rewrite mask_ones by exact H.
  apply Z.land_ones. lia.
Qed.

(** X1.  [getOffset] is the remainder of the address modulo PAGE_SIZE: it
    lies in [0, PAGE_SIZE) and taking it twice changes nothing. *)
Theorem getOffset_in_page v :
  0 <= OFFSET_WIDTH cfg <= 63 ->
  getOffset cfg v = v mod PAGE_SIZE cfg
  /\ 0 <= getOffset cfg v < PAGE_SIZE cfg
  /\ getOffset cfg (getOffset cfg v) = getOffset cfg v.
Proof.
  intros H. pose proof (PAGE_SIZE_pos (proj1 H)) as Hp.
  rewrite !getOffset_mod by exact H.
  split; [reflexivity|]. split; [apply Z.mod_pos_bound; exact Hp|].
  apply Z.mod_mod. lia.
Qed.

(** X2.  Page number and offset recompose the address: for a 64-bit
    address, [concatenatePath] of [virtualAddress >> OFFSET_WIDTH] and of
    [getOffset virtualAddress] is the address again. *)
Theorem page_and_offset_recompose v :
  0 <= OFFSET_WIDTH cfg <= 63 ->
  0 <= v < 2 ^ 64 ->
  concatenatePath cfg (Z.shiftr v (OFFSET_WIDTH cfg)) (getOffset cfg v) = v.
Proof.
  intros H Hv. pose proof (PAGE_SIZE_pos (proj1 H)) as Hp.
  unfold concatenatePath. rewrite getOffset_mod by exact H.
  rewrite Z.shiftr_div_pow2, Z.shiftl_mul_pow2 by lia.
  fold (PAGE_SIZE cfg).
  pose proof (Z.div_mod v (PAGE_SIZE cfg) ltac:(lia)) as Hdm.
  pose proof (Z.mod_pos_bound v (PAGE_SIZE cfg) Hp) as Hm.
  assert (0 <= v / PAGE_SIZE cfg) by (apply Z.div_pos; lia).
  assert (0 <= v / PAGE_SIZE cfg * PAGE_SIZE cfg) by nia.
  rewrite (u64_id (v / PAGE_SIZE cfg * PAGE_SIZE cfg)) by lia.
  rewrite u64_id by lia. lia.
Qed.

Lemma mod_pow2_u64 x n : 0 <= n <= 64 -> (u64 x) mod 2 ^ n = x mod 2 ^ n.
Proof.
  intros Hn. unfold u64.
  replace (2 ^ 64) with (2 ^ n * 2 ^ (64 - n)).
  - assert (0 < 2 ^ n) by (apply Z.pow_pos_nonneg; lia).
    assert (0 < 2 ^ (64 - n)) by (apply Z.pow_pos_nonneg; lia).
    rewrite Z.rem_mul_r by lia.
    rewrite (Z.mul_comm (2 ^ n)), Z.mod_add by lia. apply Z.mod_mod. lia.
  - rewrite <- Z.pow_add_r by lia. f_equal. lia.
Qed.

(** X3.  The physical address that [translateVirtualAddress] returns has
    the in-page offset of the virtual address, whatever the tables hold
    and whichever frame the walk ends in. *)
Theorem translation_keeps_offset v st :
  0 <= OFFSET_WIDTH cfg <= 63 ->
  getOffset cfg (fst (translateVirtualAddress cfg v st)) = getOffset cfg v.
Proof.
  intros H. pose proof (PAGE_SIZE_pos (proj1 H)) as Hp.
  unfold translateVirtualAddress.
  destruct (walk cfg _ v 0 (0, 0, st)) as [[frameIndex forb] st'].
  cbn [fst]. rewrite !getOffset_mod by exact H.
  unfold PAGE_SIZE in *. rewrite mod_pow2_u64 by lia.
  rewrite Z.add_comm, Z.mod_add by lia. apply Z.mod_mod. lia.
Qed.

Lemma findCyclicDistance_value q p :
  0 <= VIRTUAL_ADDRESS_WIDTH cfg - OFFSET_WIDTH cfg <= 30 ->
  0 <= q < NUM_PAGES cfg -> 0 <= p < NUM_PAGES cfg ->
  findCyclicDistance cfg q p = cyclic_distance cfg q p.
Proof.
  intros Hw Hq Hp.
  pose proof (findCyclicDistance_spec cfg q p ltac:(lia) Hq Hp) as Hs.
  assert (HN : 0 < NUM_PAGES cfg <= 2 ^ 30).
  { unfold NUM_PAGES. split; [apply Z.pow_pos_nonneg | apply Z.pow_le_mono_r]; lia. }
  rewrite <- Hs. symmetry. apply i32_id.
  unfold findCyclicDistance.
  match goal with |- _ <= u64 ?x < _ => assert (Hx : 0 <= x <= 2 ^ 30) end.
  { rewrite i64_u64_int by lia.
    assert (Hfirst : (if q - p <? 0 then i64 (- (q - p)) else q - p) = Z.abs (q - p)).
    { destruct (q - p <? 0) eqn:E.
      - apply Z.ltb_lt in E. rewrite i64_id by lia. lia.
      - apply Z.ltb_ge in E. lia. }
    rewrite Hfirst. rewrite (i64_id (NUM_PAGES cfg - Z.abs (q - p))) by lia.
    destruct (NUM_PAGES cfg - Z.abs (q - p) <? Z.abs (q - p)); lia. }
  rewrite u64_id by lia. lia.
Qed.

(** X4.  On page numbers below NUM_PAGES, [findCyclicDistance] is
    symmetric, lies between 0 and NUM_PAGES / 2, and is 0 exactly for
    equal pages. *)
Theorem findCyclicDistance_ring q p :
  0 <= VIRTUAL_ADDRESS_WIDTH cfg - OFFSET_WIDTH cfg <= 30 ->
  0 <= q < NUM_PAGES cfg -> 0 <= p < NUM_PAGES cfg ->
  findCyclicDistance cfg q p = findCyclicDistance cfg p q
  /\ 0 <= findCyclicDistance cfg q p
  /\ 2 * findCyclicDistance cfg q p <= NUM_PAGES cfg
  /\ (findCyclicDistance cfg q p = 0 <-> q = p).
Proof.
  intros Hw Hq Hp.
  rewrite !findCyclicDistance_value by assumption.
  unfold cyclic_distance. repeat split; lia.
Qed.

Lemma range_snoc n : forall i, range i (S n) = range i n ++ [i + Z.of_nat n].
Proof.
  induction n as [|n IH]; intros i.
  - cbn. f_equal. lia.
  - change (range i (S (S n))) with (i :: range (i + 1) (S n)).
    rewrite IH. cbn [range app]. do 2 f_equal. f_equal. lia.
Qed.

Lemma TABLES_DEPTH_bounds :
  0 < OFFSET_WIDTH cfg -> OFFSET_WIDTH cfg <= VIRTUAL_ADDRESS_WIDTH cfg ->
  0 <= TABLES_DEPTH cfg
  /\ TABLES_DEPTH cfg * OFFSET_WIDTH cfg < VIRTUAL_ADDRESS_WIDTH cfg
  /\ VIRTUAL_ADDRESS_WIDTH cfg <= (TABLES_DEPTH cfg + 1) * OFFSET_WIDTH cfg.
Proof.
  intros Ho Hv. unfold TABLES_DEPTH.
  set (w := OFFSET_WIDTH cfg) in *. set (a := VIRTUAL_ADDRESS_WIDTH cfg) in *.
  replace (a - w + w - 1) with (a - 1) by lia.
  pose proof (Z.div_mod (a - 1) w ltac:(lia)) as Hdm.
  pose proof (Z.mod_pos_bound (a - 1) w Ho) as Hm.
  assert (0 <= (a - 1) / w) by (apply Z.div_pos; lia).
  repeat split; nia.
Qed.

Lemma level_offset_mod v level :
  0 < OFFSET_WIDTH cfg <= 30 ->
  OFFSET_WIDTH cfg <= VIRTUAL_ADDRESS_WIDTH cfg <= 63 ->
  0 <= level <= TABLES_DEPTH cfg ->
  level_offset cfg v level
  = (v / 2 ^ ((TABLES_DEPTH cfg - level) * OFFSET_WIDTH cfg)) mod 2 ^ OFFSET_WIDTH cfg.
Proof.
  intros Ho Hv Hl.
  destruct (TABLES_DEPTH_bounds (proj1 Ho) (proj1 Hv)) as (Hd0 & Hd1 & Hd2).
  unfold level_offset.
  assert (Hs : 0 <= (TABLES_DEPTH cfg - level) * OFFSET_WIDTH cfg < 64) by nia.
  rewrite (u64_id ((TABLES_DEPTH cfg - level) * OFFSET_WIDTH cfg)) by lia.
  rewrite Z.shiftr_div_pow2 by lia.
  rewrite Z.shiftl_1_l.
  assert (Hp : 0 < 2 ^ OFFSET_WIDTH cfg <= 2 ^ 30).
  { split; [apply Z.pow_pos_nonneg; lia | apply Z.pow_le_mono_r; lia]. }
  rewrite i32_id by lia. rewrite u64_id by lia.
  rewrite Z.sub_1_r, <- Z.ones_equiv. apply Z.land_ones. lia.
Qed.

Lemma concatenatePath_small path off k :
  0 < OFFSET_WIDTH cfg -> 0 <= k ->
  (k + 1) * OFFSET_WIDTH cfg <= 63 ->
  0 <= path < 2 ^ (k * OFFSET_WIDTH cfg) ->
  0 <= off < 2 ^ OFFSET_WIDTH cfg ->
  concatenatePath cfg path off = path * 2 ^ OFFSET_WIDTH cfg + off.
Proof.
  intros Ho Hk Hb Hp Hoff. unfold concatenatePath.
  rewrite Z.shiftl_mul_pow2 by lia.
  assert (Hlt : path * 2 ^ OFFSET_WIDTH cfg + off < 2 ^ ((k + 1) * OFFSET_WIDTH cfg)).
  { replace ((k + 1) * OFFSET_WIDTH cfg)
      with (k * OFFSET_WIDTH cfg + OFFSET_WIDTH cfg) by lia.
    rewrite Z.pow_add_r by nia. nia. }
  assert (2 ^ ((k + 1) * OFFSET_WIDTH cfg) <= 2 ^ 63) by (apply Z.pow_le_mono_r; lia).
  assert (0 <= path * 2 ^ OFFSET_WIDTH cfg) by nia.
  rewrite (u64_id (path * 2 ^ OFFSET_WIDTH cfg)) by lia.
  apply u64_id. lia.
Qed.

Lemma path_prefix v (k : nat) :
  0 < OFFSET_WIDTH cfg <= 30 ->
  OFFSET_WIDTH cfg <= VIRTUAL_ADDRESS_WIDTH cfg <= 63 ->
  0 <= v ->
  Z.of_nat k <= TABLES_DEPTH cfg ->
  fold_left (concatenatePath cfg) (map (level_offset cfg v) (range 0 k)) 0
  = (v / 2 ^ ((TABLES_DEPTH cfg - Z.of_nat k + 1) * OFFSET_WIDTH cfg))
    mod 2 ^ (Z.of_nat k * OFFSET_WIDTH cfg).
Proof.
  intros Ho Hv Hv0.
  destruct (TABLES_DEPTH_bounds (proj1 Ho) (proj1 Hv)) as (Hd0 & Hd1 & Hd2).
  set (w := OFFSET_WIDTH cfg) in *. set (D := TABLES_DEPTH cfg) in *.
  induction k as [|k IH]; intros Hk.
  - cbn [range map fold_left]. change (Z.of_nat 0 * w) with 0.
    rewrite Z.pow_0_r, Z.mod_1_r. reflexivity.
  - rewrite range_snoc, map_app, fold_left_app. cbn [map fold_left].
    rewrite IH by lia. rewrite Z.add_0_l.
    rewrite level_offset_mod by (fold w; fold D; lia). fold w. fold D.
    set (s := (D - Z.of_nat k) * w).
    assert (Hs : 0 <= s) by (subst s; nia).
    replace ((D - Z.of_nat k + 1) * w) with (s + w) by (subst s; lia).
    replace ((D - Z.of_nat (S k) + 1) * w) with s by (subst s; lia).
    rewrite Z.pow_add_r by lia.
    assert (H2s : 0 < 2 ^ s) by (apply Z.pow_pos_nonneg; lia).
    assert (H2w : 0 < 2 ^ w) by (apply Z.pow_pos_nonneg; lia).
    assert (H2k : 0 < 2 ^ (Z.of_nat k * w)) by (apply Z.pow_pos_nonneg; nia).
    rewrite <- Z.div_div by lia.
    set (x := v / 2 ^ s).
    rewrite (concatenatePath_small _ _ (Z.of_nat k)); try (fold w); try lia; try nia.
    + replace (Z.of_nat (S k) * w) with (w + Z.of_nat k * w) by lia.
      rewrite Z.pow_add_r by nia.
      rewrite Z.rem_mul_r by lia. lia.
    + apply Z.mod_pos_bound. exact H2k.
    + apply Z.mod_pos_bound. exact H2w.
Qed.

(** X5.  The slot indices that [translateVirtualAddress] uses for levels
    0 to TABLES_DEPTH - 1, concatenated by [concatenatePath] as [findFrame]
    concatenates them on its way down, spell the page number
    [virtualAddress >> OFFSET_WIDTH]: the page number that the selector
    computes for a resident page is the one its translation faulted
    with. *)
Theorem level_offsets_spell_page_number v :
  0 < OFFSET_WIDTH cfg <= 30 ->
  OFFSET_WIDTH cfg <= VIRTUAL_ADDRESS_WIDTH cfg <= 63 ->
  0 <= v < VIRTUAL_MEMORY_SIZE cfg ->
  fold_left (concatenatePath cfg)
    (map (level_offset cfg v) (range 0 (Z.to_nat (TABLES_DEPTH cfg)))) 0
  = Z.shiftr v (OFFSET_WIDTH cfg).
Proof.
  intros Ho Hv Hr.
  destruct (TABLES_DEPTH_bounds (proj1 Ho) (proj1 Hv)) as (Hd0 & Hd1 & Hd2).
  rewrite path_prefix by lia. rewrite Z2Nat.id by lia.
  replace ((TABLES_DEPTH cfg - TABLES_DEPTH cfg + 1) * OFFSET_WIDTH cfg)
    with (OFFSET_WIDTH cfg) by lia.
  rewrite Z.shiftr_div_pow2 by lia.
  apply Z.mod_small.
  assert (H2w : 0 < 2 ^ OFFSET_WIDTH cfg) by (apply Z.pow_pos_nonneg; lia).
  split; [apply Z.div_pos; lia|].
  apply Z.div_lt_upper_bound; [lia|].
  rewrite <- Z.pow_add_r by nia.
  unfold VIRTUAL_MEMORY_SIZE in Hr.
  assert (2 ^ VIRTUAL_ADDRESS_WIDTH cfg
          <= 2 ^ (OFFSET_WIDTH cfg + TABLES_DEPTH cfg * OFFSET_WIDTH cfg))
    by (apply Z.pow_le_mono_r; lia).
  lia.
Qed.

End AddressArithmetic.

(** ** Tables: [emptyFrame], [VMinitialize] and the slot of the victim *)

Section Tables.

Variable cfg : Config.

Lemma emptyFrame_loop_elsewhere fa a n : forall i st,
  Forall (fun j => u64 (fa + j) <> a) (range i n) ->
  word_at (ram (fst (for_loop n i
                       (fun offset st => (PMwrite (fa + offset) 0 st, false)) st))) a
  = word_at (ram st) a.
Proof.
  induction n as [|n IH]; intros i st Hne; cbn [for_loop fst]; [reflexivity|].
  cbn [range] in Hne. rewrite IH by (apply Forall_inv_tail in Hne; exact Hne).
  unfold PMwrite. cbn [ram]. rewrite word_at_insert.
  apply Forall_inv in Hne. destruct (decide _); [contradiction | reflexivity].
Qed.

Lemma emptyFrame_loop_swap fa n : forall i st,
  swap (fst (for_loop n i (fun offset st => (PMwrite (fa + offset) 0 st, false)) st))
  = swap st.
Proof.
  induction n as [|n IH]; intros i st; cbn [for_loop fst]; [reflexivity|].
  rewrite IH. reflexivity.
Qed.

(** X6.  [emptyFrame] writes 0 to the PAGE_SIZE words from
    [frameAddress] on, in ascending order and with no other backend call;
    afterwards each of them reads 0, every other word is as before and
    the backing store is untouched. *)
Theorem emptyFrame_effect fa st :
  Forall (fun i => word_at (ram (emptyFrame cfg fa st)) (u64 (fa + i)) = 0) (slots cfg)
  /\ (forall a, Forall (fun i => u64 (fa + i) <> a) (slots cfg) ->
                word_at (ram (emptyFrame cfg fa st)) a = word_at (ram st) a)
  /\ swap (emptyFrame cfg fa st) = swap st
  /\ calls (emptyFrame cfg fa st)
     = calls st ++ map (fun i => EvWrite (u64 (fa + i)) 0) (slots cfg).
Proof.
  split; [apply emptyFrame_zeroes|].
  split; [intros a Ha; apply emptyFrame_loop_elsewhere; exact Ha|].
  split; [apply emptyFrame_loop_swap | apply emptyFrame_calls].
Qed.

Lemma in_range j n : forall i, In j (range i n) -> i <= j < i + Z.of_nat n.
Proof.
  induction n as [|n IH]; intros i Hin; cbn [range] in Hin.
  - contradiction.
  - destruct Hin as [<- | Hin]; [lia|]. apply IH in Hin. lia.
Qed.

Lemma in_slots i : 0 <= OFFSET_WIDTH cfg -> In i (slots cfg) -> 0 <= i < PAGE_SIZE cfg.
Proof.
  intros Ho Hin. apply in_range in Hin.
  assert (0 < PAGE_SIZE cfg) by (unfold PAGE_SIZE; apply Z.pow_pos_nonneg; lia).
  rewrite Z2Nat.id in Hin by lia. lia.
Qed.

Lemma entry_root m i :
  0 <= OFFSET_WIDTH cfg <= 30 -> In i (slots cfg) ->
  entry cfg m 0 i = i32 (word_at m i).
Proof.
  intros Ho Hin. apply in_slots in Hin; [|lia].
  assert (PAGE_SIZE cfg <= 2 ^ 30) by (unfold PAGE_SIZE; apply Z.pow_le_mono_r; lia).
  unfold entry. rewrite Z.mul_0_l. change (i32 0) with 0. rewrite Z.add_0_l.
  rewrite (i32_id i) by lia. rewrite (u64_id i) by lia. reflexivity.
Qed.

Lemma range_in j n : forall i, i <= j < i + Z.of_nat n -> In j (range i n).
Proof.
  induction n as [|n IH]; intros i Hj; cbn [range]; [lia|].
  destruct (Z.eq_dec i j) as [->|Hne]; [left; reflexivity|].
  right. apply IH. lia.
Qed.

Lemma level_offset_range v level :
  0 <= OFFSET_WIDTH cfg <= 30 ->
  0 <= level_offset cfg v level < PAGE_SIZE cfg.
Proof.
  intros Ho. unfold level_offset. rewrite Z.shiftl_1_l.
  assert (Hp : 0 < 2 ^ OFFSET_WIDTH cfg <= 2 ^ 30).
  { split; [apply Z.pow_pos_nonneg; lia | apply Z.pow_le_mono_r; lia]. }
  rewrite i32_id by lia. rewrite (u64_id (2 ^ OFFSET_WIDTH cfg - 1)) by lia.
  rewrite Z.sub_1_r, <- Z.ones_equiv, Z.land_ones by lia.
  unfold PAGE_SIZE. apply Z.mod_pos_bound. lia.
Qed.

(** X7.  Whatever the physical memory held, after [VMinitialize] the page
    table is empty: the tree has no non-zero parent slot and no resident
    page, and (with at least one level of tables) no virtual address
    resolves without an allocation. *)
Theorem VMinitialize_empties_tree st :
  0 <= OFFSET_WIDTH cfg <= 30 ->
  tree_slots cfg (ram (VMinitialize cfg st)) = []
  /\ resident_leaves cfg (ram (VMinitialize cfg st)) = []
  /\ forall v, 0 < TABLES_DEPTH cfg ->
               resident_frame cfg (ram (VMinitialize cfg st)) v = None.
Proof.
  intros Ho.
  assert (Hz : forall i, In i (slots cfg) ->
                         entry cfg (ram (VMinitialize cfg st)) 0 i = 0).
  { intros i Hin. rewrite entry_root by assumption.
    pose proof (emptyFrame_zeroes cfg 0 st) as H.
    rewrite Forall_forall in H. specialize (H i).
    unfold VMinitialize. cbv zeta.
    assert (Hi : 0 <= i < PAGE_SIZE cfg) by (apply in_slots; [lia | exact Hin]).
    assert (PAGE_SIZE cfg <= 2 ^ 30) by (unfold PAGE_SIZE; apply Z.pow_le_mono_r; lia).
    rewrite Z.add_0_l, u64_id in H by lia.
    rewrite H; [reflexivity|]. apply list_elem_of_In. exact Hin. }
  unfold tree_slots, resident_leaves, resident_frame.
  destruct (Z.to_nat (TABLES_DEPTH cfg)) as [|fuel] eqn:Ed.
  - split; [reflexivity|]. split; [reflexivity|]. intros v Hd. lia.
  - cbn [parent_slots leaves resolve].
    destruct (0 <? TABLES_DEPTH cfg) eqn:E; [|apply Z.ltb_ge in E; lia].
    assert (Hflat : forall (A : Type) (g : Z -> list A) l,
               (forall i, In i l -> g i = []) -> flat_map g l = []).
    { intros A g l. induction l as [|x l IHl]; intros H; cbn [flat_map]; [reflexivity|].
      rewrite H by (left; reflexivity). rewrite IHl; [reflexivity|].
      intros i Hi. apply H. right. exact Hi. }
    split; [|split].
    + apply Hflat. intros i Hi. rewrite (Hz i Hi). reflexivity.
    + apply Hflat. intros i Hi. rewrite (Hz i Hi). reflexivity.
    + intros v _. cbv zeta. rewrite Z.mul_0_l, Z.add_0_l.
      pose proof (level_offset_range v 0 Ho) as Hl.
      assert (PAGE_SIZE cfg <= 2 ^ 30) by (unfold PAGE_SIZE; apply Z.pow_le_mono_r; lia).
      rewrite u64_u64, (u64_id (level_offset cfg v 0)) by lia.
      assert (Hin : In (level_offset cfg v 0) (slots cfg)).
      { apply range_in. rewrite Z2Nat.id by lia. lia. }
      rewrite <- (entry_root _ _ Ho Hin), (Hz _ Hin). reflexivity.
Qed.



Lemma getOffset_concatenatePath path i :
  0 <= OFFSET_WIDTH cfg <= 63 -> 0 <= i < PAGE_SIZE cfg ->
  getOffset cfg (concatenatePath cfg path i) = i.
Proof.
  intros Ho Hi. rewrite getOffset_mod by exact Ho.
  unfold concatenatePath, PAGE_SIZE in *.
  assert (Hp : 0 < 2 ^ OFFSET_WIDTH cfg) by (apply Z.pow_pos_nonneg; lia).
  rewrite mod_pow2_u64 by lia.
  rewrite Z.add_mod by lia. rewrite mod_pow2_u64 by lia.
  rewrite Z.shiftl_mul_pow2 by lia. rewrite Z.mod_mul by lia.
  rewrite Z.add_0_l, Z.mod_mod by lia. apply Z.mod_small. exact Hi.
Qed.

(** Every resident page is named by a non-zero entry of its parent
    table. *)
Lemma leaves_entries fuel m : forall level frameIndex path,
  int_range frameIndex ->
  Forall (fun c =>
            exists fi i,
              int_range fi /\ In i (slots cfg)
              /\ snd (fst c) = u64 fi
              /\ snd c = u64 (entry cfg m fi i)
              /\ entry cfg m fi i <> 0
              /\ exists path', fst (fst c) = concatenatePath cfg path' i)
    (leaves cfg fuel m level frameIndex path).
Proof.
  induction fuel as [|fuel IH]; intros level frameIndex path Hf; cbn [leaves].
  - constructor.
  - destruct (level <? TABLES_DEPTH cfg); [|constructor].
    assert (Hsl : forall l, (forall i, In i l -> In i (slots cfg)) ->
      Forall (fun c =>
            exists fi i,
              int_range fi /\ In i (slots cfg)
              /\ snd (fst c) = u64 fi
              /\ snd c = u64 (entry cfg m fi i)
              /\ entry cfg m fi i <> 0
              /\ exists path', fst (fst c) = concatenatePath cfg path' i)
        (flat_map
           (fun i =>
              let value := entry cfg m frameIndex i in
              if value =? 0 then []
              else
                let path0 := concatenatePath cfg path i in
                (if level =? TABLES_DEPTH cfg - 1
                 then [(path0, u64 frameIndex, u64 value)] else [])
                ++ leaves cfg fuel m (level + 1) value path0) l)).
    { induction l as [|i l IHl]; intros Hin; cbn [flat_map]; [constructor|].
      apply Forall_app. split; [|apply IHl; intros j Hj; apply Hin; right; exact Hj].
      cbv zeta. destruct (entry cfg m frameIndex i =? 0) eqn:E; [constructor|].
      apply Z.eqb_neq in E. apply Forall_app. split; [|apply IH, entry_range].
      destruct (level =? TABLES_DEPTH cfg - 1); [|constructor].
      constructor; [|constructor].
      exists frameIndex, i. cbn [fst snd].
      split; [exact Hf|]. split; [apply Hin; left; reflexivity|].
      split; [reflexivity|]. split; [reflexivity|]. split; [exact E|].
      exists path. reflexivity. }
    apply Hsl. intros i Hi. exact Hi.
Qed.

(** X8.  When the selector adopts no table and has found a victim whose
    parent table is a frame of the physical memory, the victim is one of
    the resident pages, its frame is not 0, and the slot that the eviction
    branch of [addFrame] zeroes, [parentOfPageToEvict * PAGE_SIZE +
    getOffset(pageToEvict)], is the slot that holds the victim's frame. *)
Theorem eviction_zeroes_victim_slot q off forb cur addr st :
  0 <= OFFSET_WIDTH cfg <= 30 ->
  NUM_FRAMES cfg * PAGE_SIZE cfg <= 2 ^ 31 ->
  maxFrameIndex (fst (selector cfg q off forb cur addr st)) <> -1 ->
  maxCyclicalDistance (fst (selector cfg q off forb cur addr st)) <> -1 ->
  parentOfPageToEvict (fst (selector cfg q off forb cur addr st)) < NUM_FRAMES cfg ->
  In (pageToEvict (fst (selector cfg q off forb cur addr st)),
      parentOfPageToEvict (fst (selector cfg q off forb cur addr st)),
      frameToEvict (fst (selector cfg q off forb cur addr st)))
    (resident_leaves cfg (ram st))
  /\ frameToEvict (fst (selector cfg q off forb cur addr st)) <> 0
  /\ u64 (i32 (word_at (ram st)
                 (u64 (parentOfPageToEvict (fst (selector cfg q off forb cur addr st))
                       * PAGE_SIZE cfg
                       + getOffset cfg
                           (pageToEvict (fst (selector cfg q off forb cur addr st)))))))
     = frameToEvict (fst (selector cfg q off forb cur addr st)).
Proof.
  intros Ho Hmem Hne Hd Hpar.
  set (sr := fst (selector cfg q off forb cur addr st)) in *.
  destruct (selector_spec cfg q off forb cur addr st) as [Hk | Ha];
    [|destruct Ha as [Ha _]; contradiction].
  destruct Hk as (_ & _ & _ & _ & Hv & _). fold sr in Hv.
  change (victim (initial_search cur)) with (-1, (0, 0, 0)) in Hv.
  destruct (first_farthest cfg q (resident_leaves cfg (ram st)) (-1, (0, 0, 0)))
    as [[Hr _] | (before & after & Hsplit & _)].
  { rewrite <- Hv in Hr. unfold victim in Hr. congruence. }
  rewrite <- Hv in Hsplit. cbn [victim snd] in Hsplit.
  assert (Hin : In (pageToEvict sr, parentOfPageToEvict sr, frameToEvict sr)
                  (resident_leaves cfg (ram st))).
  { rewrite Hsplit. apply in_or_app. right. left. reflexivity. }
  split; [exact Hin|].
  pose proof (leaves_entries (Z.to_nat (TABLES_DEPTH cfg)) (ram st) 0 0 0
                ltac:(unfold int_range; lia)) as HL.
  fold (resident_leaves cfg (ram st)) in HL.
  rewrite List.Forall_forall in HL. specialize (HL _ Hin).
  destruct HL as (fi & i & Hfi & Hi & Hp & Hfr & Hnz & path' & Hpage).
  cbn [fst snd] in Hp, Hfr, Hpage.
  pose proof (entry_range cfg (ram st) fi i) as Her.
  split; [rewrite Hfr; apply u64_int_nonzero; assumption|].
  apply in_slots in Hi; [|lia].
  assert (Hps : 0 < PAGE_SIZE cfg) by (unfold PAGE_SIZE; apply Z.pow_pos_nonneg; lia).
  assert (Hfi0 : 0 <= fi < NUM_FRAMES cfg).
  { unfold int_range in Hfi. rewrite Hp in Hpar.
    assert (NUM_FRAMES cfg <= 2 ^ 31) by nia.
    unfold u64 in Hpar. revert Hpar. Z.div_mod_to_equations. lia. }
  assert (Hu : u64 fi = fi) by (apply u64_id; unfold int_range in Hfi; lia).
  rewrite Hpage, getOffset_concatenatePath by lia.
  rewrite Hp, Hu, Hfr. f_equal. unfold entry.
  assert (Hb : 0 <= fi * PAGE_SIZE cfg + i < 2 ^ 31) by nia.
  rewrite (i32_id (fi * PAGE_SIZE cfg)) by nia.
  rewrite (i32_id (fi * PAGE_SIZE cfg + i)) by lia. reflexivity.
Qed.

End Tables.

(** ** What the selector does to memory *)

Section SelectorEffects.

Variable cfg : Config.




(** X9.  A search that adopts no table ([maxFrameIndex] is not -1 on
    return) only reads: physical memory and backing store are as before,
    and so is the caller's [currentFrameIndex]. *)
Theorem search_without_adoption_only_reads q off forb cur addr st :
  maxFrameIndex (fst (selector cfg q off forb cur addr st)) <> -1 ->
  ram (snd (selector cfg q off forb cur addr st)) = ram st
  /\ swap (snd (selector cfg q off forb cur addr st)) = swap st
  /\ currentFrameIndex (fst (selector cfg q off forb cur addr st)) = cur
  /\ 0 <= maxFrameIndex (fst (selector cfg q off forb cur addr st))
  /\ exists rs,
       calls (snd (selector cfg q off forb cur addr st)) = calls st ++ rs
       /\ Forall is_read rs.
Proof.
  intros Hne.
  destruct (selector_spec cfg q off forb cur addr st) as [Hk | Ha];
    [|destruct Ha as [Ha _]; contradiction].
  destruct Hk as (Hm & Hr & Hs & Hc & _ & Hcu & _).
  repeat split; try assumption. lia.
Qed.


Lemma below_mono b b' L : b <= b' -> Forall (below cfg b) L -> Forall (below cfg b') L.
Proof.
  intros Hb H. eapply Forall_impl; [exact H|]. intros s Hs Hlt. specialize (Hs Hlt). lia.
Qed.

Lemma note_entry_max q level frameIndex value path sr :
  maxFrameIndex sr <= maxFrameIndex (note_entry cfg q level frameIndex value path sr)
  /\ (value < NUM_FRAMES cfg ->
      value <= maxFrameIndex (note_entry cfg q level frameIndex value path sr)).
Proof.
  unfold note_entry.
  set (sr1 := if _ && _ then set_max value sr else sr).
  assert (H1 : maxFrameIndex sr <= maxFrameIndex sr1
               /\ (value < NUM_FRAMES cfg -> value <= maxFrameIndex sr1)).
  { subst sr1. destruct (maxFrameIndex sr <? value) eqn:E1;
      destruct (value <? NUM_FRAMES cfg) eqn:E2; cbn [andb set_max maxFrameIndex];
      try apply Z.ltb_lt in E1; try apply Z.ltb_ge in E1;
      try apply Z.ltb_lt in E2; try apply Z.ltb_ge in E2; lia. }
  destruct (level =? _); [|exact H1].
  destruct (maxCyclicalDistance sr1 <? _); exact H1.
Qed.

Lemma findFrame_max fuel :
  forall q parent level off frameIndex path forb addr sr st,
  int_range frameIndex ->
  0 <= maxFrameIndex sr < 2 ^ 31 ->
  let r := findFrame cfg fuel q parent level off frameIndex path forb addr sr st in
  maxFrameIndex (fst r) <> -1 ->
  maxFrameIndex sr <= maxFrameIndex (fst r)
  /\ Forall (below cfg (maxFrameIndex (fst r)))
       (parent_slots cfg fuel (ram st) level frameIndex).
Proof.
  induction fuel as [|fuel IH];
    intros q parent level off frameIndex path forb addr sr st Hf Hm.
  - cbn. intros _. split; [lia | constructor].
  - rewrite findFrame_S. cbn [parent_slots].
    destruct (level <? TABLES_DEPTH cfg); [|cbn; intros _; split; [lia | constructor]].
    cbv zeta. unfold slots.
    set (body := fun (i : Z) '(allZeroFrames, sr, st) => _).
    set (g := fun i : Z => _).
    assert (Hloop : forall n i allZ sr0 st0,
      0 <= maxFrameIndex sr0 < 2 ^ 31 -> ram st0 = ram st ->
      (snd (for_loop n i body (allZ, sr0, st0)) = true ->
       maxFrameIndex (snd (fst (fst (for_loop n i body (allZ, sr0, st0))))) = -1)
      /\ (snd (for_loop n i body (allZ, sr0, st0)) = false ->
          0 <= maxFrameIndex (snd (fst (fst (for_loop n i body (allZ, sr0, st0))))) < 2 ^ 31
          /\ maxFrameIndex sr0
             <= maxFrameIndex (snd (fst (fst (for_loop n i body (allZ, sr0, st0)))))
          /\ Forall (below cfg (maxFrameIndex
                              (snd (fst (fst (for_loop n i body (allZ, sr0, st0))))))) 
               (flat_map g (range i n)))).
    { induction n as [|n IHn]; intros i allZ sr0 st0 Hm0 Hram.
      - cbn. split; [discriminate|]. intros _. repeat split; try lia. constructor.
      - set (st1 := record (EvRead (u64 (i32 (i32 (frameIndex * PAGE_SIZE cfg) + i)))) st0).
        assert (Hram1 : ram st1 = ram st) by exact Hram.
        set (value := entry cfg (ram st) frameIndex i).
        pose proof (entry_range cfg (ram st) frameIndex i) as Hv. fold value in Hv.
        set (path' := concatenatePath cfg path i).
        set (sr1 := note_entry cfg q level frameIndex value path' sr0).
        assert (Hb : body i (allZ, sr0, st0)
                     = if value =? 0 then (allZ, sr0, st1, false)
                       else let r := findFrame cfg fuel q
                              (i32 (i32 (frameIndex * PAGE_SIZE cfg) + i))
                              (level + 1) off value path' forb addr sr1 st1 in
                            (false, fst r, snd r, maxFrameIndex (fst r) =? -1)).
        { unfold body, PMread. cbv zeta. rewrite Hram.
          change (i32 (word_at (ram st)
                    (u64 (i32 (i32 (frameIndex * PAGE_SIZE cfg) + i))))) with value.
          fold st1. destruct (value =? 0); [reflexivity|].
          fold path'. fold sr1. destruct (findFrame _ _ _ _ _ _ _ _ _ _ _ _). reflexivity. }
        cbn [for_loop range flat_map]. rewrite Hb. clear Hb.
        unfold g at 1. fold value.
        destruct (value =? 0) eqn:Ez.
        + cbn [app]. exact (IHn (i + 1) allZ sr0 st1 Hm0 Hram1).
        + cbv zeta.
          assert (Hm1 : 0 <= maxFrameIndex sr1 < 2 ^ 31)
            by (apply max_note_entry; assumption).
          pose proof (findFrame_spec cfg fuel q
                        (i32 (i32 (frameIndex * PAGE_SIZE cfg) + i))
                        (level + 1) off value path' forb addr sr1 st1 Hv Hm1) as Hspec.
          pose proof (IH q (i32 (i32 (frameIndex * PAGE_SIZE cfg) + i))
                        (level + 1) off value path' forb addr sr1 st1 Hv Hm1) as Hrec.
          cbv zeta in Hspec, Hrec. rewrite Hram1 in Hrec.
          set (r := findFrame _ _ _ _ _ _ _ _ _ _ _ _) in *.
          destruct (note_entry_max q level frameIndex value path' sr0) as [Hn1 Hn2].
          fold sr1 in Hn1, Hn2.
          destruct Hspec as [Hk | Ha].
          * destruct Hk as (Hm2 & Hr2 & _).
            assert (Hne : (maxFrameIndex (fst r) =? -1) = false)
              by (apply Z.eqb_neq; lia).
            rewrite Hne.
            assert (Hram2 : ram (snd r) = ram st) by congruence.
            destruct (Hrec ltac:(lia)) as [Hr1 Hr3].
            destruct (IHn (i + 1) false (fst r) (snd r) Hm2 Hram2) as [Ht Hfalse].
            split; [exact Ht|]. intros Hr.
            destruct (Hfalse Hr) as (H1 & H2 & H3).
            split; [exact H1|]. split; [lia|].
            change (?a :: ?l ++ ?l') with ((a :: l) ++ l').
            apply Forall_app. split; [|exact H3].
            constructor.
            -- intros Hlt. cbn [snd] in *. specialize (Hn2 Hlt). lia.
            -- apply (below_mono _ _ _ H2 Hr3).
          * assert (Heq : maxFrameIndex (fst r) = -1) by apply Ha.
            rewrite (proj2 (Z.eqb_eq _ _) Heq). cbn [fst snd].
            split; [intros _; exact Heq | discriminate].
    }
    specialize (Hloop (Z.to_nat (PAGE_SIZE cfg)) 0 true sr st Hm eq_refl).
    destruct (for_loop (Z.to_nat (PAGE_SIZE cfg)) 0 body (true, sr, st))
      as [[[allZ sr'] st'] returned].
    cbn [fst snd] in Hloop. destruct Hloop as [Ht Hfalse].
    destruct returned.
    + cbn [fst]. intros Hne. exfalso. apply Hne. apply Ht. reflexivity.
    + destruct (Hfalse eq_refl) as (H1 & H2 & H3).
      unfold adopt.
      destruct (allZ && negb (maxFrameIndex sr' =? -1) && negb (u64 frameIndex =? forb));
        cbn [fst snd set_adopted maxFrameIndex].
      * intros Hne. exfalso. apply Hne. reflexivity.
      * intros _. split; assumption.
Qed.

(** X11.  When [addFrame] takes the fresh-frame branch (no table adopted
    and [maxFrameIndex + 1 < NUM_FRAMES]) the frame it returns is
    [maxFrameIndex + 1], a frame index from 1 to NUM_FRAMES - 1 that no
    non-zero parent slot of the tree referenced when the allocation
    started. *)
Theorem fresh_frame_is_unreferenced q off level forb cur addr st :
  NUM_FRAMES cfg <= 2 ^ 31 ->
  maxFrameIndex (fst (selector cfg q off forb cur addr st)) <> -1 ->
  maxFrameIndex (fst (selector cfg q off forb cur addr st)) + 1 < NUM_FRAMES cfg ->
  snd (fst (addFrame cfg q off level forb cur addr st))
  = maxFrameIndex (fst (selector cfg q off forb cur addr st)) + 1
  /\ 1 <= snd (fst (addFrame cfg q off level forb cur addr st)) < NUM_FRAMES cfg
  /\ Forall (fun s => snd s <> snd (fst (addFrame cfg q off level forb cur addr st)))
       (tree_slots cfg (ram st)).
Proof.
  intros Hnf Hne Hlt.
  destruct (selector_spec cfg q off forb cur addr st) as [Hk | Ha];
    [|destruct Ha as [Ha _]; contradiction].
  destruct Hk as (Hm & _).
  destruct (addFrame_cases cfg q off level forb cur addr st)
    as (chosen & strategy & Hcase & _).
  cbv zeta in Hcase.
  destruct Hcase as [(Hneg & _) | [(_ & _ & Hch & _ & Hcur) | (_ & Hge & _)]];
    [contradiction | | lia].
  rewrite Hcur, Hch. rewrite i32_id by lia.
  split; [reflexivity|]. split; [lia|].
  pose proof (findFrame_max (Z.to_nat (TABLES_DEPTH cfg)) q (-1) 0 off 0 0 forb addr
                (initial_search cur) st ltac:(unfold int_range; lia)
                ltac:(cbn; lia)) as Hmax.
  cbv zeta in Hmax. fold (selector cfg q off forb cur addr st) in Hmax.
  destruct (Hmax Hne) as [_ Hall]. fold (tree_slots cfg (ram st)) in Hall.
  eapply Forall_impl; [exact Hall|].
  intros s Hs Heq. unfold below in Hs. rewrite Heq in Hs. specialize (Hs Hlt). lia.
Qed.

End SelectorEffects.

(** ** Calls to the backing store *)

Section BackingStore.

Variable cfg : Config.

Lemma evictions_app l1 l2 : evictions (l1 ++ l2) = (evictions l1 + evictions l2)%nat.
Proof. unfold evictions. rewrite List.filter_app, length_app. reflexivity. Qed.

Lemma restores_app l1 l2 : restores (l1 ++ l2) = (restores l1 + restores l2)%nat.
Proof. unfold restores. rewrite List.filter_app, length_app. reflexivity. Qed.

Lemma memory_calls_only l :
  Forall (fun e => is_evict e = false /\ is_restore e = false) l ->
  evictions l = 0%nat /\ restores l = 0%nat.
Proof.
  unfold evictions, restores. induction l as [|e l IH]; intros H; [split; reflexivity|].
  destruct (Forall_cons_1 _ _ _ H) as [[He Hr] Hl]. cbn [List.filter]. rewrite He, Hr. apply IH, Hl.
Qed.

Lemma reads_memory_only rs :
  Forall is_read rs -> Forall (fun e => is_evict e = false /\ is_restore e = false) rs.
Proof.
  intros H. eapply Forall_impl; [exact H|]. intros [] He; cbn in *; try contradiction.
  split; reflexivity.
Qed.

Lemma zero_writes_memory_only l :
  Forall zero_write l -> Forall (fun e => is_evict e = false /\ is_restore e = false) l.
Proof.
  intros H. eapply Forall_impl; [exact H|]. intros e [a ->]. split; reflexivity.
Qed.

Lemma zeroing_memory_only frame :
  Forall (fun e => is_evict e = false /\ is_restore e = false) (zeroing cfg frame).
Proof.
  unfold zeroing. apply Forall_map. apply Forall_forall. intros i _. split; reflexivity.
Qed.

Lemma filling_counts level frame q :
  evictions (filling cfg level frame q) = 0%nat
  /\ restores (filling cfg level frame q)
     = if level =? TABLES_DEPTH cfg - 1 then 1%nat else 0%nat.
Proof.
  unfold filling. destruct (level =? TABLES_DEPTH cfg - 1).
  - split; reflexivity.
  - apply memory_calls_only, zeroing_memory_only.
Qed.

Lemma selector_counts q off forb cur addr st :
  exists new,
    calls (snd (selector cfg q off forb cur addr st)) = calls st ++ new
    /\ evictions new = 0%nat /\ restores new = 0%nat.
Proof.
  destruct (selector_spec cfg q off forb cur addr st) as [Hk | Ha].
  - destruct Hk as (_ & _ & _ & (rs & Hc & Hrs) & _).
    exists rs. split; [exact Hc|]. apply memory_calls_only, reads_memory_only, Hrs.
  - destruct Ha as (_ & _ & f & rs & detach & _ & _ & _ & _ & Hc & Hrs & Hd).
    exists (rs ++ detach ++ [EvWrite (u64 addr) f]). split; [exact Hc|].
    apply memory_calls_only. apply Forall_app. split; [apply reads_memory_only, Hrs|].
    apply Forall_app. split; [apply zero_writes_memory_only, Hd|].
    constructor; [split; reflexivity | constructor].
Qed.

Lemma addFrame_counts q off level forb cur addr st :
  exists new,
    calls (snd (addFrame cfg q off level forb cur addr st)) = calls st ++ new
    /\ evictions new
       = (if negb (maxFrameIndex (fst (selector cfg q off forb cur addr st)) =? -1)
             && (NUM_FRAMES cfg
                 <=? maxFrameIndex (fst (selector cfg q off forb cur addr st)) + 1)
          then 1%nat else 0%nat)
    /\ restores new = (if level =? TABLES_DEPTH cfg - 1 then 1%nat else 0%nat).
Proof.
  destruct (selector_counts q off forb cur addr st) as (new0 & Hc0 & He0 & Hr0).
  destruct (addFrame_cases cfg q off level forb cur addr st)
    as (chosen & strategy & Hcase & Hcalls & _).
  cbv zeta in Hcase, Hcalls.
  destruct (filling_counts level chosen q) as [Hfe Hfr].
  exists (new0 ++ strategy ++ filling cfg level chosen q).
  split; [rewrite Hcalls, Hc0, <- app_assoc; reflexivity|].
  rewrite !evictions_app, !restores_app, He0, Hr0, Hfe, Hfr.
  destruct Hcase as [(Hneg & _ & -> & _) | [(Hne & Hlt & _ & -> & _)
                                          | (Hne & Hge & _ & -> & _)]].
  - rewrite Hneg. cbn. split; [reflexivity | destruct (level =? _); reflexivity].
  - apply Z.eqb_neq in Hne. rewrite Hne.
    assert (E : (NUM_FRAMES cfg <=? maxFrameIndex
                   (fst (selector cfg q off forb cur addr st)) + 1) = false)
      by (apply Z.leb_gt; lia).
    rewrite E. cbn. split; [reflexivity | destruct (level =? _); reflexivity].
  - apply Z.eqb_neq in Hne. rewrite Hne.
    assert (E : (NUM_FRAMES cfg <=? maxFrameIndex
                   (fst (selector cfg q off forb cur addr st)) + 1) = true)
      by (apply Z.leb_le; lia).
    rewrite E. cbn. split; [reflexivity | destruct (level =? _); reflexivity].
Qed.

(** X12.  One call of [addFrame] calls PMevict exactly once when it takes
    the eviction branch and never otherwise, and calls PMrestore exactly
    once when the faulting level is the last level of tables and never
    otherwise. *)
Theorem allocation_backing_store_calls q off level forb cur addr st :
  exists new,
    calls (snd (addFrame cfg q off level forb cur addr st)) = calls st ++ new
    /\ evictions new
       = (if negb (maxFrameIndex (fst (selector cfg q off forb cur addr st)) =? -1)
             && (NUM_FRAMES cfg
                 <=? maxFrameIndex (fst (selector cfg q off forb cur addr st)) + 1)
          then 1%nat else 0%nat)
    /\ restores new = (if level =? TABLES_DEPTH cfg - 1 then 1%nat else 0%nat).
Proof. apply addFrame_counts. Qed.

Lemma walk_S n v level s :
  walk cfg (S n) v level s = walk cfg n v (level + 1) (walk_level cfg v level s).
Proof. reflexivity. Qed.

Lemma walk_level_counts v level f forb st :
  exists new,
    calls (snd (walk_level cfg v level (f, forb, st))) = calls st ++ new
    /\ (evictions new <= 1)%nat
    /\ (restores new <= if (level =? TABLES_DEPTH cfg - 1)%Z then 1 else 0)%nat.
Proof.
  unfold walk_level, PMread. cbv zeta.
  set (a := u64 (f * PAGE_SIZE cfg + level_offset cfg v level)).
  set (st1 := record (EvRead (u64 a)) st).
  destruct (i32 (word_at (ram st) (u64 a)) =? 0).
  - destruct (addFrame_counts (Z.shiftr v (OFFSET_WIDTH cfg))
                (level_offset cfg v level) level forb
                (i32 (word_at (ram st) (u64 a))) a st1) as (new & Hc & He & Hr).
    destruct (addFrame cfg _ _ level forb _ a st1) as [[forb' f'] st'].
    cbn [fst snd] in *. exists (EvRead (u64 a) :: new).
    split; [rewrite Hc; cbn [st1 record calls]; rewrite <- app_assoc; reflexivity|].
    change (EvRead (u64 a) :: new) with ([EvRead (u64 a)] ++ new).
    rewrite evictions_app, restores_app, He, Hr. cbn.
    split; [destruct (_ && _); lia | destruct (level =? _); lia].
  - cbn [snd]. exists [EvRead (u64 a)]. split; [reflexivity|]. cbn.
    split; [lia | destruct (level =? _); lia].
Qed.

Lemma walk_counts v n : forall level f forb st,
  exists new,
    calls (snd (walk cfg n v level (f, forb, st))) = calls st ++ new
    /\ (evictions new <= n)%nat
    /\ (restores new
        <= if ((level <=? TABLES_DEPTH cfg - 1)
               && (TABLES_DEPTH cfg - 1 <? level + Z.of_nat n))%Z then 1 else 0)%nat.
Proof.
  induction n as [|n IH]; intros level f forb st.
  - exists []. cbn. rewrite app_nil_r. repeat split; lia.
  - rewrite walk_S.
    destruct (walk_level_counts v level f forb st) as (new1 & Hc1 & He1 & Hr1).
    destruct (walk_level cfg v level (f, forb, st)) as [[f1 forb1] st1].
    cbn [snd] in Hc1.
    destruct (IH (level + 1) f1 forb1 st1) as (new2 & Hc2 & He2 & Hr2).
    exists (new1 ++ new2).
    split; [rewrite Hc2, Hc1, <- app_assoc; reflexivity|].
    rewrite evictions_app, restores_app.
    split; [lia|].
    destruct (level =? TABLES_DEPTH cfg - 1) eqn:E1.
    + apply Z.eqb_eq in E1.
      assert (E2 : (level + 1 <=? TABLES_DEPTH cfg - 1) = false) by (apply Z.leb_gt; lia).
      rewrite E2 in Hr2. cbn [andb] in Hr2.
      assert (E3 : (level <=? TABLES_DEPTH cfg - 1) = true) by (apply Z.leb_le; lia).
      assert (E4 : (TABLES_DEPTH cfg - 1 <? level + Z.of_nat (S n)) = true)
        by (apply Z.ltb_lt; lia).
      rewrite E3, E4. cbn [andb]. lia.
    + apply Z.eqb_neq in E1.
      destruct ((level + 1 <=? TABLES_DEPTH cfg - 1)
                && (TABLES_DEPTH cfg - 1 <? level + 1 + Z.of_nat n)) eqn:E2.
      * apply andb_prop in E2 as [E2 E3].
        apply Z.leb_le in E2. apply Z.ltb_lt in E3.
        assert (E4 : (level <=? TABLES_DEPTH cfg - 1) = true) by (apply Z.leb_le; lia).
        assert (E5 : (TABLES_DEPTH cfg - 1 <? level + Z.of_nat (S n)) = true)
          by (apply Z.ltb_lt; lia).
        rewrite E4, E5. cbn [andb]. lia.
      * assert (restores new1 + restores new2 = 0)%nat by lia.
        destruct (_ && _); lia.
Qed.

(** X13.  One translation brings in at most one page: the calls of
    [translateVirtualAddress] contain at most one PMrestore, and at most
    TABLES_DEPTH PMevict. *)
Theorem access_restores_at_most_one_page v st :
  exists new,
    calls (snd (translateVirtualAddress cfg v st)) = calls st ++ new
    /\ (restores new <= 1)%nat
    /\ (evictions new <= Z.to_nat (TABLES_DEPTH cfg))%nat.
Proof.
  destruct (walk_counts v (Z.to_nat (TABLES_DEPTH cfg)) 0 0 0 st) as (new & Hc & He & Hr).
  unfold translateVirtualAddress.
  destruct (walk cfg _ v 0 (0, 0, st)) as [[f forb] st'].
  cbn [snd] in *. exists new. split; [exact Hc|]. split; [|exact He].
  destruct (_ && _); lia.
Qed.

End BackingStore.

(** ** Accesses to resident pages *)

Section Hits.

Variable cfg : Config.


Lemma walk_resolve v n : forall level f forb st f',
  resolve cfg n (ram st) v level f = Some f' ->
  exists st' rs,
    walk cfg n v level (f, forb, st) = (f', forb, st')
    /\ ram st' = ram st /\ swap st' = swap st
    /\ calls st' = calls st ++ rs /\ Forall is_read rs /\ length rs = n.
Proof.
  induction n as [|n IH]; intros level f forb st f' Hres.
  - cbn in Hres. injection Hres as <-. exists st, [].
    rewrite app_nil_r. repeat split. constructor.
  - cbn [resolve] in Hres. cbv zeta in Hres.
    set (a := u64 (f * PAGE_SIZE cfg + level_offset cfg v level)) in *.
    set (next := i32 (word_at (ram st) (u64 a))) in *.
    destruct (next =? 0) eqn:E; [discriminate|].
    rewrite walk_S.
    assert (Hl : walk_level cfg v level (f, forb, st)
                 = (next, forb, record (EvRead (u64 a)) st)).
    { unfold walk_level, PMread. cbv zeta. fold a. fold next. rewrite E. reflexivity. }
    rewrite Hl.
    destruct (IH (level + 1) next forb (record (EvRead (u64 a)) st) f' Hres)
      as (st' & rs & Hw & Hr & Hs & Hc & Hrs & Hlen).
    exists st', (EvRead (u64 a) :: rs). split; [exact Hw|].
    split; [exact Hr|]. split; [exact Hs|].
    split; [rewrite Hc; cbn [record calls]; rewrite <- app_assoc; reflexivity|].
    split; [constructor; [exact I | exact Hrs]|]. cbn [length]. lia.
Qed.

Lemma translate_resident v f st :
  resident_frame cfg (ram st) v = Some f ->
  fst (translateVirtualAddress cfg v st) = u64 (f * PAGE_SIZE cfg + getOffset cfg v)
  /\ ram (snd (translateVirtualAddress cfg v st)) = ram st
  /\ swap (snd (translateVirtualAddress cfg v st)) = swap st
  /\ exists rs,
       calls (snd (translateVirtualAddress cfg v st)) = calls st ++ rs
       /\ Forall is_read rs /\ length rs = Z.to_nat (TABLES_DEPTH cfg).
Proof.
  intros Hres. unfold resident_frame in Hres.
  destruct (walk_resolve v _ 0 0 0 st f Hres) as (st' & rs & Hw & Hr & Hs & Hc & Hrs & Hlen).
  unfold translateVirtualAddress. rewrite Hw. cbn [fst snd].
  repeat split; try assumption. exists rs. repeat split; assumption.
Qed.

Lemma VMread_resident v f cell st :
  v < VIRTUAL_MEMORY_SIZE cfg ->
  resident_frame cfg (ram st) v = Some f ->
  fst (VMread cfg v (Some cell) st)
  = (1, Some (i32 (word_at (ram st) (u64 (f * PAGE_SIZE cfg + getOffset cfg v)))))
  /\ ram (snd (VMread cfg v (Some cell) st)) = ram st
  /\ swap (snd (VMread cfg v (Some cell) st)) = swap st
  /\ exists rs,
       calls (snd (VMread cfg v (Some cell) st)) = calls st ++ rs
       /\ Forall is_read rs /\ length rs = S (Z.to_nat (TABLES_DEPTH cfg)).
Proof.
  intros Hv Hres.
  destruct (translate_resident v f st Hres) as (Ha & Hr & Hs & rs & Hc & Hrs & Hlen).
  unfold VMread. apply Z.leb_gt in Hv. rewrite Hv.
  destruct (translateVirtualAddress cfg v st) as [pa st'].
  cbn [fst snd] in *. unfold PMread. cbn [fst snd record ram swap calls].
  rewrite Hr, Ha, u64_u64. split; [reflexivity|].
  split; [reflexivity|]. split; [exact Hs|].
  exists (rs ++ [EvRead (u64 (f * PAGE_SIZE cfg + getOffset cfg v))]).
  split; [rewrite Hc, <- app_assoc; reflexivity|].
  split; [apply Forall_app; split; [exact Hrs | repeat constructor]|].
  rewrite length_app. cbn [length]. lia.
Qed.

(** X14.  When every table on the path of a valid address is in place,
    [VMread] succeeds, stores the word of the page's frame at the offset
    of the address, and only reads: TABLES_DEPTH table entries and the
    word; memory and backing store are unchanged. *)
Theorem read_hit v f cell st :
  v < VIRTUAL_MEMORY_SIZE cfg ->
  resident_frame cfg (ram st) v = Some f ->
  fst (VMread cfg v (Some cell) st)
  = (1, Some (i32 (word_at (ram st) (u64 (f * PAGE_SIZE cfg + getOffset cfg v)))))
  /\ ram (snd (VMread cfg v (Some cell) st)) = ram st
  /\ swap (snd (VMread cfg v (Some cell) st)) = swap st
  /\ exists rs,
       calls (snd (VMread cfg v (Some cell) st)) = calls st ++ rs
       /\ Forall is_read rs /\ length rs = S (Z.to_nat (TABLES_DEPTH cfg)).
Proof. apply VMread_resident. Qed.

(** X15.  When every table on the path of a valid address is in place,
    [VMwrite] succeeds and changes exactly one word of memory, the word of
    the page's frame at the offset of the address; its calls are
    TABLES_DEPTH reads followed by that write. *)
Theorem write_hit v w f st :
  v < VIRTUAL_MEMORY_SIZE cfg ->
  resident_frame cfg (ram st) v = Some f ->
  fst (VMwrite cfg v w st) = 1
  /\ ram (snd (VMwrite cfg v w st))
     = <[u64 (f * PAGE_SIZE cfg + getOffset cfg v) := i32 w]> (ram st)
  /\ swap (snd (VMwrite cfg v w st)) = swap st
  /\ exists rs,
       calls (snd (VMwrite cfg v w st))
       = calls st ++ rs ++ [EvWrite (u64 (f * PAGE_SIZE cfg + getOffset cfg v)) (i32 w)]
       /\ Forall is_read rs /\ length rs = Z.to_nat (TABLES_DEPTH cfg).
Proof.
  intros Hv Hres.
  destruct (translate_resident v f st Hres) as (Ha & Hr & Hs & rs & Hc & Hrs & Hlen).
  unfold VMwrite. apply Z.leb_gt in Hv. rewrite Hv.
  destruct (translateVirtualAddress cfg v st) as [pa st'].
  cbn [fst snd] in *. unfold PMwrite. cbn [ram swap calls].
  rewrite Hr, Ha, u64_u64. split; [reflexivity|].
  split; [reflexivity|]. split; [exact Hs|].
  exists rs. split; [rewrite Hc, <- app_assoc; reflexivity|]. split; assumption.
Qed.

(** X16.  After [VMwrite(v, w)], if the tables of the resulting memory
    resolve [v] without an allocation to the physical word that the write
    stored into, [VMread(v)] returns [w]. *)
Theorem written_word_read_back v w f cell st :
  v < VIRTUAL_MEMORY_SIZE cfg ->
  resident_frame cfg (ram (snd (VMwrite cfg v w st))) v = Some f ->
  u64 (f * PAGE_SIZE cfg + getOffset cfg v) = fst (translateVirtualAddress cfg v st) ->
  fst (VMread cfg v (Some cell) (snd (VMwrite cfg v w st))) = (1, Some (i32 w)).
Proof.
  intros Hv Hres Hpa.
  destruct (VMread_resident v f cell _ Hv Hres) as (Hread & _).
  rewrite Hread. do 2 f_equal. rewrite Hpa.
  unfold VMwrite. pose proof Hv as Hv'. apply Z.leb_gt in Hv'. rewrite Hv'.
  destruct (translateVirtualAddress cfg v st) as [pa st'].
  cbn [fst snd]. unfold PMwrite. cbn [ram].
  unfold word_at. 
  assert (Hu : u64 pa = pa).
  { cbn [fst] in Hpa. rewrite <- Hpa. apply u64_u64. }
  rewrite Hu, lookup_insert_eq. cbn. apply i32_i32.
Qed.

End Hits.

(** ** The further properties at concrete allocations and accesses *)

Section FurtherScenarios.

(** [getOffset_in_page] for address 5 with pages of two words. *)
Lemma getOffset_in_page_witness :
  0 <= OFFSET_WIDTH cfg_two_levels <= 63
  /\ (getOffset cfg_two_levels 5 = 5 mod PAGE_SIZE cfg_two_levels
      /\ 0 <= getOffset cfg_two_levels 5 < PAGE_SIZE cfg_two_levels
      /\ getOffset cfg_two_levels (getOffset cfg_two_levels 5) = getOffset cfg_two_levels 5).
Proof.
  assert (H1 : 0 <= OFFSET_WIDTH cfg_two_levels <= 63)
    by (vm_compute; split; discriminate).
  split; [exact H1|].
  exact (getOffset_in_page cfg_two_levels 5 H1).
Defined.

(** [page_and_offset_recompose] for address 5: page 2, offset 1. *)
Lemma page_and_offset_recompose_witness :
  (0 <= OFFSET_WIDTH cfg_two_levels <= 63
   /\ 0 <= 5 < 2 ^ 64)
  /\ (concatenatePath cfg_two_levels (Z.shiftr 5 (OFFSET_WIDTH cfg_two_levels)) (getOffset cfg_two_levels 5) = 5).
Proof.
  assert (H1 : 0 <= OFFSET_WIDTH cfg_two_levels <= 63)
    by (vm_compute; split; discriminate).
  assert (H2 : 0 <= 5 < 2 ^ 64)
    by (vm_compute; split; [discriminate | reflexivity]).
  split; [exact (conj H1 H2)|].
  exact (page_and_offset_recompose cfg_two_levels 5 H1 H2).
Defined.

(** [translation_keeps_offset] for the first access after initialisation. *)
Lemma translation_keeps_offset_witness :
  0 <= OFFSET_WIDTH cfg_two_levels <= 63
  /\ (getOffset cfg_two_levels (fst (translateVirtualAddress cfg_two_levels 5 (boot cfg_two_levels))) = getOffset cfg_two_levels 5).
Proof.
  assert (H1 : 0 <= OFFSET_WIDTH cfg_two_levels <= 63)
    by (vm_compute; split; discriminate).
  split; [exact H1|].
  exact (translation_keeps_offset cfg_two_levels 5 (boot cfg_two_levels) H1).
Defined.

(** [findCyclicDistance_ring] for pages 1 and 14 of 16: the distance is 3,
    around the end of the ring. *)
Lemma findCyclicDistance_ring_witness :
  (0 <= VIRTUAL_ADDRESS_WIDTH cfg_four_levels - OFFSET_WIDTH cfg_four_levels <= 30
   /\ 0 <= 1 < NUM_PAGES cfg_four_levels
   /\ 0 <= 14 < NUM_PAGES cfg_four_levels)
  /\ (findCyclicDistance cfg_four_levels 1 14 = findCyclicDistance cfg_four_levels 14 1
      /\ 0 <= findCyclicDistance cfg_four_levels 1 14
      /\ 2 * findCyclicDistance cfg_four_levels 1 14 <= NUM_PAGES cfg_four_levels
      /\ (findCyclicDistance cfg_four_levels 1 14 = 0 <-> 1 = 14)).
Proof.
  assert (H1 : 0 <= VIRTUAL_ADDRESS_WIDTH cfg_four_levels - OFFSET_WIDTH cfg_four_levels <= 30)
    by (vm_compute; split; discriminate).
  assert (H2 : 0 <= 1 < NUM_PAGES cfg_four_levels)
    by (vm_compute; split; [discriminate | reflexivity]).
  assert (H3 : 0 <= 14 < NUM_PAGES cfg_four_levels)
    by (vm_compute; split; [discriminate | reflexivity]).
  split; [exact (conj H1 (conj H2 H3))|].
  exact (findCyclicDistance_ring cfg_four_levels 1 14 H1 H2 H3).
Defined.

(** [level_offsets_spell_page_number] for address 13 under four levels of
    tables: slots 0, 1, 1, 0 spell page 6. *)
Lemma level_offsets_spell_page_number_witness :
  (0 < OFFSET_WIDTH cfg_four_levels <= 30
   /\ OFFSET_WIDTH cfg_four_levels <= VIRTUAL_ADDRESS_WIDTH cfg_four_levels <= 63
   /\ 0 <= 13 < VIRTUAL_MEMORY_SIZE cfg_four_levels)
  /\ (fold_left (concatenatePath cfg_four_levels)
        (map (level_offset cfg_four_levels 13) (range 0 (Z.to_nat (TABLES_DEPTH cfg_four_levels)))) 0
      = Z.shiftr 13 (OFFSET_WIDTH cfg_four_levels)).
Proof.
  assert (H1 : 0 < OFFSET_WIDTH cfg_four_levels <= 30)
    by (vm_compute; split; [reflexivity | discriminate]).
  assert (H2 : OFFSET_WIDTH cfg_four_levels <= VIRTUAL_ADDRESS_WIDTH cfg_four_levels <= 63)
    by (vm_compute; split; discriminate).
  assert (H3 : 0 <= 13 < VIRTUAL_MEMORY_SIZE cfg_four_levels)
    by (vm_compute; split; [discriminate | reflexivity]).
  split; [exact (conj H1 (conj H2 H3))|].
  exact (level_offsets_spell_page_number cfg_four_levels 13 H1 H2 H3).
Defined.

(** [VMinitialize_empties_tree] from a memory with two resident pages. *)
Lemma VMinitialize_empties_tree_witness :
  0 <= OFFSET_WIDTH cfg_two_levels <= 30
  /\ (tree_slots cfg_two_levels (ram (VMinitialize cfg_two_levels two_pages_resident)) = []
      /\ resident_leaves cfg_two_levels (ram (VMinitialize cfg_two_levels two_pages_resident)) = []
      /\ forall v, 0 < TABLES_DEPTH cfg_two_levels ->
                   resident_frame cfg_two_levels (ram (VMinitialize cfg_two_levels two_pages_resident)) v = None).
Proof.
  assert (H1 : 0 <= OFFSET_WIDTH cfg_two_levels <= 30)
    by (vm_compute; split; discriminate).
  split; [exact H1|].
  exact (VMinitialize_empties_tree cfg_two_levels two_pages_resident H1).
Defined.

(** [search_without_adoption_only_reads] at the allocation of a table for
    page 2, every frame in use. *)
Lemma search_without_adoption_only_reads_witness :
  maxFrameIndex (fst (selector cfg_two_levels 2 1 0 0 1 two_pages_resident)) <> -1
  /\ (ram (snd (selector cfg_two_levels 2 1 0 0 1 two_pages_resident)) = ram two_pages_resident
      /\ swap (snd (selector cfg_two_levels 2 1 0 0 1 two_pages_resident)) = swap two_pages_resident
      /\ currentFrameIndex (fst (selector cfg_two_levels 2 1 0 0 1 two_pages_resident)) = 0
      /\ 0 <= maxFrameIndex (fst (selector cfg_two_levels 2 1 0 0 1 two_pages_resident))
      /\ exists rs,
           calls (snd (selector cfg_two_levels 2 1 0 0 1 two_pages_resident)) = calls two_pages_resident ++ rs
           /\ Forall is_read rs).
Proof.
  assert (H1 : maxFrameIndex (fst (selector cfg_two_levels 2 1 0 0 1 two_pages_resident)) <> -1)
    by (vm_compute; discriminate).
  split; [exact H1|].
  exact (search_without_adoption_only_reads cfg_two_levels 2 1 0 0 1 two_pages_resident H1).
Defined.


(** [fresh_frame_is_unreferenced] at the allocation of a table for page 2
    with frames 0, 1 and 2 in use: frame 3. *)
Lemma fresh_frame_is_unreferenced_witness :
  (NUM_FRAMES cfg_two_levels <= 2 ^ 31
   /\ maxFrameIndex (fst (selector cfg_two_levels 2 1 0 0 1 one_page_resident)) <> -1
   /\ maxFrameIndex (fst (selector cfg_two_levels 2 1 0 0 1 one_page_resident)) + 1 < NUM_FRAMES cfg_two_levels)
  /\ (snd (fst (addFrame cfg_two_levels 2 1 0 0 0 1 one_page_resident)) = maxFrameIndex (fst (selector cfg_two_levels 2 1 0 0 1 one_page_resident)) + 1
      /\ 1 <= snd (fst (addFrame cfg_two_levels 2 1 0 0 0 1 one_page_resident)) < NUM_FRAMES cfg_two_levels
      /\ Forall (fun s => snd s <> snd (fst (addFrame cfg_two_levels 2 1 0 0 0 1 one_page_resident)))
           (tree_slots cfg_two_levels (ram one_page_resident))).
Proof.
  assert (H1 : NUM_FRAMES cfg_two_levels <= 2 ^ 31)
    by (vm_compute; discriminate).
  assert (H2 : maxFrameIndex (fst (selector cfg_two_levels 2 1 0 0 1 one_page_resident)) <> -1)
    by (vm_compute; discriminate).
  assert (H3 : maxFrameIndex (fst (selector cfg_two_levels 2 1 0 0 1 one_page_resident)) + 1 < NUM_FRAMES cfg_two_levels)
    by (vm_compute; reflexivity).
  split; [exact (conj H1 (conj H2 H3))|].
  exact (fresh_frame_is_unreferenced cfg_two_levels 2 1 0 0 0 1 one_page_resident H1 H2 H3).
Defined.

(** [eviction_zeroes_victim_slot] at the allocation of a table for page 2,
    every frame in use: the victim is page 0 in frame 2, under slot 0 of the
    table in frame 1. *)
Lemma eviction_zeroes_victim_slot_witness :
  (0 <= OFFSET_WIDTH cfg_two_levels <= 30
   /\ NUM_FRAMES cfg_two_levels * PAGE_SIZE cfg_two_levels <= 2 ^ 31
   /\ maxFrameIndex (fst (selector cfg_two_levels 2 1 0 0 1 two_pages_resident)) <> -1
   /\ maxCyclicalDistance (fst (selector cfg_two_levels 2 1 0 0 1 two_pages_resident)) <> -1
   /\ parentOfPageToEvict (fst (selector cfg_two_levels 2 1 0 0 1 two_pages_resident)) < NUM_FRAMES cfg_two_levels)
  /\ (In (pageToEvict (fst (selector cfg_two_levels 2 1 0 0 1 two_pages_resident)),
          parentOfPageToEvict (fst (selector cfg_two_levels 2 1 0 0 1 two_pages_resident)),
          frameToEvict (fst (selector cfg_two_levels 2 1 0 0 1 two_pages_resident)))
        (resident_leaves cfg_two_levels (ram two_pages_resident))
      /\ frameToEvict (fst (selector cfg_two_levels 2 1 0 0 1 two_pages_resident)) <> 0
      /\ u64 (i32 (word_at (ram two_pages_resident)
                     (u64 (parentOfPageToEvict (fst (selector cfg_two_levels 2 1 0 0 1 two_pages_resident))
                           * PAGE_SIZE cfg_two_levels
                           + getOffset cfg_two_levels
                               (pageToEvict (fst (selector cfg_two_levels 2 1 0 0 1 two_pages_resident)))))))
         = frameToEvict (fst (selector cfg_two_levels 2 1 0 0 1 two_pages_resident))).
Proof.
  assert (H1 : 0 <= OFFSET_WIDTH cfg_two_levels <= 30)
    by (vm_compute; split; discriminate).
  assert (H2 : NUM_FRAMES cfg_two_levels * PAGE_SIZE cfg_two_levels <= 2 ^ 31)
    by (vm_compute; discriminate).
  assert (H3 : maxFrameIndex (fst (selector cfg_two_levels 2 1 0 0 1 two_pages_resident)) <> -1)
    by (vm_compute; discriminate).
  assert (H4 : maxCyclicalDistance (fst (selector cfg_two_levels 2 1 0 0 1 two_pages_resident)) <> -1)
    by (vm_compute; discriminate).
  assert (H5 : parentOfPageToEvict (fst (selector cfg_two_levels 2 1 0 0 1 two_pages_resident)) < NUM_FRAMES cfg_two_levels)
    by (vm_compute; reflexivity).
  split; [exact (conj H1 (conj H2 (conj H3 (conj H4 H5))))|].
  exact (eviction_zeroes_victim_slot cfg_two_levels 2 1 0 0 1 two_pages_resident H1 H2 H3 H4 H5).
Defined.

(** [read_hit] for address 0 with page 0 resident in frame 2. *)
Lemma read_hit_witness :
  (0 < VIRTUAL_MEMORY_SIZE cfg_two_levels
   /\ resident_frame cfg_two_levels (ram two_pages_resident) 0 = Some 2)
  /\ (fst (VMread cfg_two_levels 0 (Some 99) two_pages_resident)
      = (1, Some (i32 (word_at (ram two_pages_resident)
                         (u64 (2 * PAGE_SIZE cfg_two_levels + getOffset cfg_two_levels 0)))))
      /\ ram (snd (VMread cfg_two_levels 0 (Some 99) two_pages_resident)) = ram two_pages_resident
      /\ swap (snd (VMread cfg_two_levels 0 (Some 99) two_pages_resident)) = swap two_pages_resident
      /\ exists rs,
           calls (snd (VMread cfg_two_levels 0 (Some 99) two_pages_resident)) = calls two_pages_resident ++ rs
           /\ Forall is_read rs /\ length rs = S (Z.to_nat (TABLES_DEPTH cfg_two_levels))).
Proof.
  assert (H1 : 0 < VIRTUAL_MEMORY_SIZE cfg_two_levels)
    by (vm_compute; reflexivity).
  assert (H2 : resident_frame cfg_two_levels (ram two_pages_resident) 0 = Some 2)
    by (vm_compute; reflexivity).
  split; [exact (conj H1 H2)|].
  exact (read_hit cfg_two_levels 0 2 99 two_pages_resident H1 H2).
Defined.

(** [write_hit] for address 0 with page 0 resident in frame 2. *)
Lemma write_hit_witness :
  (0 < VIRTUAL_MEMORY_SIZE cfg_two_levels
   /\ resident_frame cfg_two_levels (ram two_pages_resident) 0 = Some 2)
  /\ (fst (VMwrite cfg_two_levels 0 9 two_pages_resident) = 1
      /\ ram (snd (VMwrite cfg_two_levels 0 9 two_pages_resident))
         = <[u64 (2 * PAGE_SIZE cfg_two_levels + getOffset cfg_two_levels 0) := i32 9]>
             (ram two_pages_resident)
      /\ swap (snd (VMwrite cfg_two_levels 0 9 two_pages_resident)) = swap two_pages_resident
      /\ exists rs,
           calls (snd (VMwrite cfg_two_levels 0 9 two_pages_resident))
           = calls two_pages_resident ++ rs
             ++ [EvWrite (u64 (2 * PAGE_SIZE cfg_two_levels + getOffset cfg_two_levels 0))
                   (i32 9)]
           /\ Forall is_read rs /\ length rs = Z.to_nat (TABLES_DEPTH cfg_two_levels)).
Proof.
  assert (H1 : 0 < VIRTUAL_MEMORY_SIZE cfg_two_levels)
    by (vm_compute; reflexivity).
  assert (H2 : resident_frame cfg_two_levels (ram two_pages_resident) 0 = Some 2)
    by (vm_compute; reflexivity).
  split; [exact (conj H1 H2)|].
  exact (write_hit cfg_two_levels 0 9 2 two_pages_resident H1 H2).
Defined.

(** [written_word_read_back] for the first write after initialisation: page
    0 is brought into frame 2. *)
Lemma written_word_read_back_witness :
  (0 < VIRTUAL_MEMORY_SIZE cfg_two_levels
   /\ resident_frame cfg_two_levels (ram (snd (VMwrite cfg_two_levels 0 5 (boot cfg_two_levels)))) 0 = Some 2
   /\ u64 (2 * PAGE_SIZE cfg_two_levels + getOffset cfg_two_levels 0) = fst (translateVirtualAddress cfg_two_levels 0 (boot cfg_two_levels)))
  /\ (fst (VMread cfg_two_levels 0 (Some 99) (snd (VMwrite cfg_two_levels 0 5 (boot cfg_two_levels)))) = (1, Some (i32 5))).
Proof.
  assert (H1 : 0 < VIRTUAL_MEMORY_SIZE cfg_two_levels)
    by (vm_compute; reflexivity).
  assert (H2 : resident_frame cfg_two_levels (ram (snd (VMwrite cfg_two_levels 0 5 (boot cfg_two_levels)))) 0 = Some 2)
    by (vm_compute; reflexivity).
  assert (H3 : u64 (2 * PAGE_SIZE cfg_two_levels + getOffset cfg_two_levels 0) = fst (translateVirtualAddress cfg_two_levels 0 (boot cfg_two_levels)))
    by (vm_compute; reflexivity).
  split; [exact (conj H1 (conj H2 H3))|].
  exact (written_word_read_back cfg_two_levels 0 5 2 99 (boot cfg_two_levels) H1 H2 H3).
Defined.

End FurtherScenarios.
